(** * MedCo: the switching and aggregation protocols of the cothority

    A shallow embedding of
      - protocols/medco/deterministic_switching_protocol.go
      - protocols/medco/key_switching_protocol.go
      - protocols/medco/private_aggregate_protocol.go
      - services/medco/medco.go
    Go maps are stdpp [gmap]s, slices are lists, a nil map or pointer is
    [None], and a run-time panic is an outcome of its own.  Debug logging
    ([dbg.Lvl1]) has no effect on the results and is left out. *)

From Stdlib Require Import ZArith.
From stdpp Require Import base option list gmap strings fin_maps.

Set Warnings "-register-all".

Local Open Scope string_scope.

(** ** The cipher suite

    [abstract.Suite], [abstract.Point] and [abstract.Secret] are interfaces
    of the external curve library.  The class lists the operations the
    protocols call together with the laws of a group that carries a scalar
    action; every theorem below holds for each instance. *)

Class Suite := {
  Point : Type;
  Secret : Type;
  Null : Point;                          (* suite.Point().Null() *)
  Base : Point;                          (* suite.Point().Base() *)
  PAdd : Point → Point → Point;          (* Point.Add(a, b) *)
  PSub : Point → Point → Point;          (* Point.Sub(a, b) *)
  Mul : Point → Secret → Point;          (* Point.Mul(p, s) *)
  SZero : Secret;                        (* suite.Secret().Zero() *)
  SAdd : Secret → Secret → Secret;       (* Secret.Add(a, b) *)
  PAdd_assoc : ∀ P Q R, PAdd P (PAdd Q R) = PAdd (PAdd P Q) R;
  PAdd_comm : ∀ P Q, PAdd P Q = PAdd Q P;
  PAdd_Null_l : ∀ P, PAdd Null P = P;
  PSub_PAdd : ∀ P Q, PAdd (PSub P Q) Q = P;
  PAdd_PSub : ∀ P Q, PSub (PAdd P Q) Q = P;
  Mul_SZero : ∀ P, Mul P SZero = Null;
  Mul_SAdd : ∀ P a b, Mul P (SAdd a b) = PAdd (Mul P a) (Mul P b);
  Mul_PAdd : ∀ P Q a, Mul (PAdd P Q) a = PAdd (Mul P a) (Mul Q a);
  Mul_Mul_comm : ∀ P a b, Mul (Mul P a) b = Mul (Mul P b) a
}.

(** The integers under addition, generated by 1, with integer scalars: the
    instance on which the concrete runs below are evaluated. *)
#[program] Definition ZSuite : Suite := {|
  Point := Z; Secret := Z;
  Null := 0%Z; Base := 1%Z;
  PAdd := Z.add; PSub := Z.sub;
  Mul := λ p s, (s * p)%Z;
  SZero := 0%Z; SAdd := Z.add
|}.
Solve All Obligations with (intros; simpl; lia).

(** ** Go values *)

Definition error := string.
Abbreviation UUID := N (only parsing).
Abbreviation TreeNode := N (only parsing).
Abbreviation Entity := N (only parsing).

(** What a call did: it returned (with its [error] result and the effects
    it had on the outside) or it panicked. *)
Inductive outcome (E : Type) : Type :=
| Returned (err : option error) (effects : list E)
| Panicked.
Arguments Returned {E} err effects.
Arguments Panicked {E}.

Definition returnedError {E} (o : outcome E) : option error :=
  match o with Returned err _ => err | Panicked => None end.

Definition hasReturned {E} (o : outcome E) : bool :=
  match o with Returned _ _ => true | Panicked => false end.

(** The effects of a protocol instance: a call of [SendTo] (with the error
    the overlay gave back), a call of [SendToChildren] or [SendToParent],
    and a value written to the feedback channel. *)
Inductive effect (M F : Type) : Type :=
| SendTo (to : option TreeNode) (msg : M) (err : option error)
| SendToChildren (msg : M)
| SendToParent (msg : M)
| Feedback (data : F).
Arguments SendTo {M F} to msg err.
Arguments SendToChildren {M F} msg.
Arguments SendToParent {M F} msg.
Arguments Feedback {M F} data.

Definition effectsOf {E} (o : outcome E) : list E :=
  match o with Returned _ effects => effects | Panicked => [] end.

(** The outcome of a call whose send the overlay accepted, had the overlay
    reported the send as failed with [e]: the same return value and the
    same effects, the send carrying the error. *)
Definition markFailed {M F} (e : error) (eff : effect M F) : effect M F :=
  match eff with
  | SendTo to msg None => SendTo to msg (Some e)
  | _ => eff
  end.
Definition failedSend {M F} (e : error) (o : outcome (effect M F))
    : outcome (effect M F) :=
  match o with
  | Returned err effects => Returned err (markFailed e <$> effects)
  | Panicked => Panicked
  end.

(** [m[k][i] = v] on a map of slices: [m[k]] is the nil slice when [k] is
    absent, and an index outside the slice panics ([None]). *)
Definition assignAt `{Countable K} {A} (m : gmap K (list A)) (k : K)
    (i : nat) (v : A) : option (gmap K (list A)) :=
  match m !! k with
  | Some l => if decide (i < length l) then Some (<[k := <[i := v]> l]> m) else None
  | None => None
  end.

(** [for k := range m { body(k, m[k]) }] where the body updates the entry
    in place and may panic: one panicking iteration makes the loop panic,
    otherwise every entry is updated. *)
Definition rangeUpdate `{Countable K} {A} (body : K → A → option A)
    (m : gmap K A) : option (gmap K A) :=
  if decide (map_Forall (λ k a, is_Some (body k a)) m)
  then Some (map_imap body m) else None.

(** [for i, node := range nodeList { if self.Equal(node) { next =
    nodeList[(i+1) % len(nodeList)]; break } }], the loop of both ring
    constructors. *)
Definition nextInCircuit (nodeList : list TreeNode) (self : TreeNode)
    : option TreeNode :=
  match list_find (λ node, self = node) nodeList with
  | Some (i, _) => nodeList !! ((i + 1) mod length nodeList)
  | None => None
  end.

(** The node a message is at after [k] sends along the circuit from
    [node], each instance sending to its [nextNodeInCircuit]. *)
Fixpoint circuitAfter (nodeList : list TreeNode) (k : nat) (node : TreeNode)
    : option TreeNode :=
  match k with
  | O => Some node
  | S k' => next ← nextInCircuit nodeList node; circuitAfter nodeList k' next
  end.

(** The part of [sda.TreeNodeInstance] the protocols read. *)
Record TreeNodeInstance `{Suite} := {
  tniList : list TreeNode;       (* n.Tree().List() *)
  tniNode : TreeNode;            (* n.TreeNode() *)
  tniIsRoot : bool;              (* n.IsRoot() *)
  tniIsLeaf : bool;              (* n.IsLeaf() *)
  tniPrivate : Secret            (* n.Private() *)
}.

(** ** Cipher texts and vectors *)

Record CipherText `{Suite} := { K : Point; C : Point }.
Abbreviation CipherVector := (list CipherText).

Record DeterministCipherText `{Suite} := { DC : Point }.
Abbreviation DeterministCipherVector := (list DeterministCipherText).

Section Crypto.
Context `{Suite}.

(** Modelled from the spec: the package services/medco/structs (its
    CipherText and CipherVector methods) is missing from the sources.
    Spec 4.4: the working copy has each K field cleared to the group
    identity. *)
Definition InitCipherVector (dim : nat) : CipherVector :=
  replicate dim {| K := Null; C := Null |}.

(** Modelled from the spec: the method CipherText.Add of the missing
    package services/medco/structs.  Spec 3: (K,C) + (K',C') =
    (K+K', C+C'). *)
Definition ctAdd (c1 c2 : CipherText) : CipherText :=
  {| K := PAdd (K c1) (K c2); C := PAdd (C c1) (C c2) |}.

(** Modelled from the spec: the method CipherVector.Add of the missing
    package services/medco/structs, component-wise addition (spec 4.1).
    The spec gives no result for vectors of different lengths; the
    components both vectors have are added. *)
Definition cvAdd (cv1 cv2 : CipherVector) : CipherVector :=
  zip_with ctAdd cv1 cv2.

(** Modelled from the spec: CipherText.SwitchToDeterministic of the
    missing package services/medco/structs.  Spec 4.1: replace (K,C) with
    (K, C − s_i·K + π_i·K). *)
Definition ctSwitchToDeterministic (private phKey : Secret) (c : CipherText)
    : CipherText :=
  {| K := K c;
     C := PAdd (PSub (C c) (Mul (K c) private)) (Mul (K c) phKey) |}.

(** Modelled from the spec: CipherVector.SwitchToDeterministic of the
    missing package, "for each component". *)
Definition cvSwitchToDeterministic (private phKey : Secret) (cv : CipherVector)
    : CipherVector :=
  ctSwitchToDeterministic private phKey <$> cv.

(** Modelled from the spec: CipherText.SwitchForKey of the missing package
    services/medco/structs.  Spec 4.1: replace (K,C) with
    (K + r_i·B, C − s_i·origK + r_i·Y_new). *)
Definition ctSwitchForKey (private : Secret) (origK newKey : Point)
    (r : Secret) (c : CipherText) : CipherText :=
  {| K := PAdd (K c) (Mul Base r);
     C := PAdd (PSub (C c) (Mul origK private)) (Mul newKey r) |}.

(** Modelled from the spec: CipherVector.SwitchForKey of the missing
    package.  Spec 4.4: each component is switched with the original
    ephemeral key of that component; a component without a recorded key
    has no result (indexing the key slice out of range). *)
Fixpoint cvSwitchForKey (private : Secret) (origKs : list Point)
    (newKey : Point) (r : Secret) (cv : CipherVector) : option CipherVector :=
  match cv with
  | [] => Some []
  | c :: cv' =>
      match origKs with
      | [] => None
      | k :: origKs' =>
          cons (ctSwitchForKey private k newKey r c)
            <$> cvSwitchForKey private origKs' newKey r cv'
      end
  end.

(** One function applied to every component of every row of a map. *)
Definition mapRows {A} (f : CipherText → A) (data : gmap UUID CipherVector)
    : gmap UUID (list A) :=
  (λ cv : CipherVector, f <$> cv) <$> data.

(** Sums over the servers of a ring. *)
Definition sumSecrets (l : list Secret) : Secret := foldr SAdd SZero l.
Definition sumPoints (l : list Point) : Point := foldr PAdd Null l.

(** Spec 3: the collective public key is the sum of the servers' public
    keys, the public key of a server being its secret times the base. *)
Definition collectiveKey (privates : list Secret) : Point :=
  sumPoints ((λ s, Mul Base s) <$> privates).

(** Spec 3: a cipher text (K, C) of the message point [M] under the public
    key [Y], with ephemeral secret [k]: K = k·B and C = M + k·Y. *)
Definition encrypts (Y M : Point) (k : Secret) (c : CipherText) : Prop :=
  K c = Mul Base k ∧ C c = PAdd M (Mul Y k).

End Crypto.

(** ** Deterministic Switching (deterministic_switching_protocol.go) *)

Section DeterministicSwitching.
Context `{Suite}.

Record DeterministicSwitchedMessage := {
  dsData : gmap UUID CipherVector
}.

Record DeterministicSwitchingProtocol := {
  dsNode : TreeNodeInstance;
  dsNextNodeInCircuit : option TreeNode;
  dsTargetOfSwitch : option (gmap UUID CipherVector);
  dsSurveyPHKey : option Secret
}.

Definition DSEffect : Type :=
  effect DeterministicSwitchedMessage (gmap UUID DeterministCipherVector).

(** [NewDeterministSwitchingProtocol]; [registerErr] is what
    [RegisterChannel] returned. *)
Definition NewDeterministSwitchingProtocol (n : TreeNodeInstance)
    (registerErr : option error) : DeterministicSwitchingProtocol + error :=
  match registerErr with
  | Some e => inr ("couldn't register data reference channel: " +:+ e)
  | None =>
      inl {| dsNode := n;
             dsNextNodeInCircuit := nextInCircuit (tniList n) (tniNode n);
             dsTargetOfSwitch := None;
             dsSurveyPHKey := None |}
  end.

(** [sendToNext]: the error of [SendTo] is logged and nothing is returned
    to the caller. *)
Definition dsSendToNext (p : DeterministicSwitchingProtocol)
    (msg : DeterministicSwitchedMessage) (sendErr : option error)
    : list DSEffect :=
  [SendTo (dsNextNodeInCircuit p) msg sendErr].

(** [Start]; [sendErr] is what the overlay's [SendTo] returns. *)
Definition dsStart (p : DeterministicSwitchingProtocol)
    (sendErr : option error) : outcome DSEffect :=
  match dsTargetOfSwitch p with
  | None => Returned (Some "No map given as deterministic switching target.") []
  | Some target =>
      Returned None (dsSendToNext p {| dsData := target |} sendErr)
  end.

(** The first loop of [Dispatch]: every vector is switched in place;
    [*p.SurveyPHKey] is read in the loop body. *)
Definition dsSwitchAll (p : DeterministicSwitchingProtocol)
    (data : gmap UUID CipherVector) : option (gmap UUID CipherVector) :=
  rangeUpdate (λ _ elem,
    phKey ← dsSurveyPHKey p;
    Some (cvSwitchToDeterministic (tniPrivate (dsNode p)) phKey elem)) data.

(** The inner loop at the root:
    [for i, c := range Data[k] { deterministicSwitchedData[k][i] = {c.C} }]. *)
Definition dsExtractRow (k : UUID) (cv : CipherVector)
    (acc : option (gmap UUID DeterministCipherVector))
    : option (gmap UUID DeterministCipherVector) :=
  foldl (λ acc ic, m ← acc; assignAt m k ic.1 {| DC := C ic.2 |})
        acc (imap pair cv).

(** The loops at the root, from
    [make(map[uuid.UUID]DeterministCipherVector, len(Data))], the empty
    map. *)
Definition dsExtract (data : gmap UUID CipherVector)
    : option (gmap UUID DeterministCipherVector) :=
  map_fold dsExtractRow (Some ∅) data.

(** [Dispatch] on the message received from the previous node. *)
Definition dsDispatch (p : DeterministicSwitchingProtocol)
    (msg : DeterministicSwitchedMessage) (sendErr : option error)
    : outcome DSEffect :=
  match dsSwitchAll p (dsData msg) with
  | None => Panicked
  | Some data =>
      if tniIsRoot (dsNode p) then
        match dsExtract data with
        | None => Panicked
        | Some deterministicSwitchedData =>
            Returned None [Feedback deterministicSwitchedData]
        end
      else Returned None (dsSendToNext p {| dsData := data |} sendErr)
  end.

(** The ring: the message that [Start] sent visits the instances of
    [hops] in turn; each runs [Dispatch] and the overlay delivers what it
    forwards (no send fails).  The run ends with the outcome of the
    instance that did not forward, [None] when the message is still in
    flight after the last of [hops]. *)
Fixpoint dsRing (hops : list DeterministicSwitchingProtocol)
    (msg : DeterministicSwitchedMessage) : option (outcome DSEffect) :=
  match hops with
  | [] => None
  | p :: rest =>
      match dsDispatch p msg None with
      | Returned None [SendTo _ msg' None] => dsRing rest msg'
      | o => Some o
      end
  end.

(** The data in flight after the switching loops of all of [hops]: what
    the last instance holds when it reaches [if p.IsRoot()]. *)
Fixpoint dsSwitchRing (hops : list DeterministicSwitchingProtocol)
    (data : gmap UUID CipherVector) : option (gmap UUID CipherVector) :=
  match hops with
  | [] => Some data
  | p :: rest => data' ← dsSwitchAll p data; dsSwitchRing rest data'
  end.

(** The deterministic cipher text of one cipher text [c]: its C component
    after the switching loops of all of [hops], the K component being
    discarded. *)
Definition dsLabel (hops : list DeterministicSwitchingProtocol)
    (c : CipherText) : option DeterministCipherText :=
  data ← dsSwitchRing hops {[ 0%N := [c] ]};
  cv ← data !! 0%N;
  c' ← cv !! 0%nat;
  Some {| DC := C c' |}.

(** The secrets of the servers of a ring. *)
Definition dsPrivates (hops : list DeterministicSwitchingProtocol)
    : list Secret :=
  (λ p, tniPrivate (dsNode p)) <$> hops.

(** A component after the whole ring, in closed form: K is kept, and from
    C every server has taken its share of the ephemeral key off and put
    its survey share on. *)
Definition dsSwitched (privates phKeys : list Secret) (c : CipherText)
    : CipherText :=
  {| K := K c;
     C := PAdd (PSub (C c) (Mul (K c) (sumSecrets privates)))
               (Mul (K c) (sumSecrets phKeys)) |}.

End DeterministicSwitching.

(** ** Key Switching (key_switching_protocol.go) *)

Section KeySwitching.
Context `{Suite}.

Record KeySwitchedCipherMessage := {
  ksData : gmap UUID CipherVector;
  ksNewKey : Point;
  ksOriginalEphemeralKeys : gmap UUID (list Point)
}.

Record KeySwitchingProtocol := {
  ksNode : TreeNodeInstance;
  ksNextNodeInCircuit : option TreeNode;
  ksTargetOfSwitch : option (gmap UUID CipherVector);
  ksTargetPublicKey : option Point
}.

Definition KSEffect : Type :=
  effect KeySwitchedCipherMessage (gmap UUID CipherVector).

(** [NewKeySwitchingProtocol]; [registerErr] is what [RegisterChannel]
    returned. *)
Definition NewKeySwitchingProtocol (n : TreeNodeInstance)
    (registerErr : option error) : KeySwitchingProtocol + error :=
  match registerErr with
  | Some e => inr ("couldn't register data reference channel: " +:+ e)
  | None =>
      inl {| ksNode := n;
             ksNextNodeInCircuit := nextInCircuit (tniList n) (tniNode n);
             ksTargetOfSwitch := None;
             ksTargetPublicKey := None |}
  end.

(** [sendToNext], as in the deterministic protocol. *)
Definition ksSendToNext (p : KeySwitchingProtocol)
    (msg : KeySwitchedCipherMessage) (sendErr : option error)
    : list KSEffect :=
  [SendTo (ksNextNodeInCircuit p) msg sendErr].

(** The inner loop of [Start] on row [k]:
    [initialCipherVector[i].C = c.C; p.originalEphemKeys[k][i] = c.K].
    The state is the vector under construction and the map of original
    keys; the first assignment is in range by the length given to
    [InitCipherVector]. *)
Definition ksStartRow (k : UUID) (row : CipherVector)
    (origKeys : gmap UUID (list Point))
    : option (CipherVector * gmap UUID (list Point)) :=
  foldl (λ acc ic,
           '(initialCipherVector, keys) ← acc;
           let initialCipherVector' :=
             alter (λ c0, {| K := K c0; C := C ic.2 |}) ic.1 initialCipherVector in
           keys' ← assignAt keys k ic.1 (K ic.2);
           Some (initialCipherVector', keys'))
        (Some (InitCipherVector (length row), origKeys))
        (imap pair row).

(** The outer loop of [Start], from two empty maps. *)
Definition ksStartLoop (target : gmap UUID CipherVector)
    : option (gmap UUID CipherVector * gmap UUID (list Point)) :=
  map_fold (λ k row acc,
              '(initialMap, keys) ← acc;
              '(initialCipherVector, keys') ← ksStartRow k row keys;
              Some (<[k := initialCipherVector]> initialMap, keys'))
           (Some (∅, ∅)) target.

(** [Start]; [sendErr] is what the overlay's [SendTo] returns. *)
Definition ksStart (p : KeySwitchingProtocol) (sendErr : option error)
    : outcome KSEffect :=
  match ksTargetOfSwitch p with
  | None => Returned (Some "No ciphertext given as key switching target.") []
  | Some target =>
      match ksTargetPublicKey p with
      | None => Returned (Some "No new public key to be switched on provided.") []
      | Some newKey =>
          match ksStartLoop target with
          | None => Panicked
          | Some (initialMap, originalEphemKeys) =>
              Returned None
                (ksSendToNext p {| ksData := initialMap;
                                   ksNewKey := newKey;
                                   ksOriginalEphemeralKeys := originalEphemKeys |}
                              sendErr)
          end
      end
  end.

(** The loop of [Dispatch]: row [k] is switched in place with the original
    keys the message carries for [k] (the nil slice when it has none). *)
Definition ksSwitchAll (p : KeySwitchingProtocol)
    (msg : KeySwitchedCipherMessage) (randomnessContrib : Secret)
    : option (gmap UUID CipherVector) :=
  rangeUpdate (λ k cv,
    cvSwitchForKey (tniPrivate (ksNode p))
                   (default [] (ksOriginalEphemeralKeys msg !! k))
                   (ksNewKey msg) randomnessContrib cv) (ksData msg).

(** [Dispatch] on the message received from the previous node;
    [randomnessContrib] is the secret picked from [random.Stream]. *)
Definition ksDispatch (p : KeySwitchingProtocol)
    (msg : KeySwitchedCipherMessage) (randomnessContrib : Secret)
    (sendErr : option error) : outcome KSEffect :=
  match ksSwitchAll p msg randomnessContrib with
  | None => Panicked
  | Some data =>
      if tniIsRoot (ksNode p) then Returned None [Feedback data]
      else Returned None
             (ksSendToNext p {| ksData := data;
                                ksNewKey := ksNewKey msg;
                                ksOriginalEphemeralKeys :=
                                  ksOriginalEphemeralKeys msg |} sendErr)
  end.

(** The ring: the message visits the instances of [hops] in turn, each
    with the randomness it picked; the overlay delivers what an instance
    forwards (no send fails).  The run ends with the outcome of the
    instance that did not forward, [None] when the message is still in
    flight after the last of [hops]. *)
Fixpoint ksRing (hops : list (KeySwitchingProtocol * Secret))
    (msg : KeySwitchedCipherMessage) : option (outcome KSEffect) :=
  match hops with
  | [] => None
  | (p, r) :: rest =>
      match ksDispatch p msg r None with
      | Returned None [SendTo _ msg' None] => ksRing rest msg'
      | o => Some o
      end
  end.

(** One run of the protocol: [Start] at the root, then the message it
    sent is processed in turn by the other instances and at last by the
    root, which picked [rootRandomness]; no send fails. *)
Definition ksProtocol (root : KeySwitchingProtocol) (rootRandomness : Secret)
    (others : list (KeySwitchingProtocol * Secret))
    : option (outcome KSEffect) :=
  match ksStart root None with
  | Returned None [SendTo _ msg None] =>
      ksRing (others ++ [(root, rootRandomness)]) msg
  | o => Some o
  end.

(** The secrets of the servers of a ring and the randomness they picked. *)
Definition ksPrivates (hops : list (KeySwitchingProtocol * Secret))
    : list Secret :=
  (λ h, tniPrivate (ksNode h.1)) <$> hops.
Definition ksRandomness (hops : list (KeySwitchingProtocol * Secret))
    : list Secret :=
  snd <$> hops.

(** The message in flight when the components are [st] of the original
    ones. *)
Definition ksInFlight (target : gmap UUID CipherVector) (newKey : Point)
    (st : CipherText → CipherText) : KeySwitchedCipherMessage :=
  {| ksData := mapRows st target;
     ksNewKey := newKey;
     ksOriginalEphemeralKeys := mapRows K target |}.

End KeySwitching.

(** ** Private Aggregation (private_aggregate_protocol.go) *)

Section PrivateAggregate.
Context `{Suite}.
(** [GroupingAttributes] is declared in the missing package
    services/medco/structs; the protocol only uses it as a map key. *)
Context {GroupingAttributes : Type} `{Countable GroupingAttributes}.

Inductive PAMessage :=
| DataReferenceMessage
| ChildAggregatedDataMessage (ChildData : gmap GroupingAttributes CipherVector).

Record PrivateAggregateProtocol := {
  paNode : TreeNodeInstance;
  paDataReference : option (gmap GroupingAttributes CipherVector)
}.

Definition PAEffect : Type :=
  effect PAMessage (gmap GroupingAttributes CipherVector).

(** [NewPrivateAggregate]; [registerReference] and [registerChildData]
    are what the two calls of [RegisterChannel] returned, the second not
    being made when the first fails. *)
Definition NewPrivateAggregate (n : TreeNodeInstance)
    (registerReference registerChildData : option error)
    : PrivateAggregateProtocol + error :=
  match registerReference with
  | Some e => inr ("couldn't register data reference channel: " +:+ e)
  | None =>
      match registerChildData with
      | Some e => inr ("couldn't register child-data channel: " +:+ e)
      | None => inl {| paNode := n; paDataReference := None |}
      end
  end.

(** [Start]. *)
Definition paStart (p : PrivateAggregateProtocol) : outcome PAEffect :=
  match paDataReference p with
  | None => Returned (Some "No data reference provided for aggregation.") []
  | Some _ => Returned None [SendToChildren DataReferenceMessage]
  end.

(** One iteration of the loop over the groups of a child:
    [if aggr, ok := localContribution[group]; ok {
       localAggr := localContribution[group]; localAggr.Add(localAggr, aggr)
     } else { localContribution[group] = aggr }]
    (the source dereferences the pointer [localContribution] each time).
    [aggr] is read from the local map: in the first branch it is the local
    vector, added to itself in place; in the second it is the zero value
    of a [CipherVector], the nil slice. *)
Definition foldGroup (localContribution : gmap GroupingAttributes CipherVector)
    (group : GroupingAttributes) : gmap GroupingAttributes CipherVector :=
  match localContribution !! group with
  | Some aggr =>
      let localAggr := aggr in
      <[group := cvAdd localAggr aggr]> localContribution
  | None => <[group := []]> localContribution
  end.

(** [for group := range childrenContribution.ChildData { ... }]. *)
Definition foldChild (localContribution : gmap GroupingAttributes CipherVector)
    (ChildData : gmap GroupingAttributes CipherVector)
    : gmap GroupingAttributes CipherVector :=
  map_fold (λ group _ acc, foldGroup acc group) localContribution ChildData.

(** [ascendingAggregationPhase]; [children] is the slice read from
    [ChildDataChannel], the messages of all the children.  Returns the
    aggregated map and the message sent to the parent. *)
Definition ascendingAggregationPhase (isLeaf isRoot : bool)
    (localContribution : option (gmap GroupingAttributes CipherVector))
    (children : list (gmap GroupingAttributes CipherVector))
    : gmap GroupingAttributes CipherVector * list PAEffect :=
  let local0 := default ∅ localContribution in
  let local1 := if isLeaf then local0 else foldl foldChild local0 children in
  (local1,
   if isRoot then [] else [SendToParent (ChildAggregatedDataMessage local1)]).

(** [Dispatch]: the announcement phase of a node that is not the root,
    the ascending phase, and the report of the root. *)
Definition paDispatch (p : PrivateAggregateProtocol)
    (children : list (gmap GroupingAttributes CipherVector))
    : outcome PAEffect :=
  let isRoot := tniIsRoot (paNode p) in
  let isLeaf := tniIsLeaf (paNode p) in
  let announce :=
    if isRoot then []
    else if isLeaf then [] else [SendToChildren DataReferenceMessage] in
  let '(aggregatedContribution, sent) :=
    ascendingAggregationPhase isLeaf isRoot (paDataReference p) children in
  Returned None
    (announce ++ sent ++
     if isRoot then [Feedback aggregatedContribution] else []).

(** The tree of one aggregation: every node with its data reference and
    its children, a leaf being a node without children. *)
Inductive AggTree :=
| AggNode (DataReference : option (gmap GroupingAttributes CipherVector))
          (children : list AggTree).

(** The map a node holds at the end of its ascending phase, its children
    having sent theirs. *)
Fixpoint aggregated (isRoot : bool) (t : AggTree)
    : gmap GroupingAttributes CipherVector :=
  match t with
  | AggNode DataReference children =>
      (ascendingAggregationPhase
         (bool_decide (children = [])) isRoot DataReference
         (map (aggregated false) children)).1
  end.

(** What the root writes to its feedback channel. *)
Definition delivered (t : AggTree) : gmap GroupingAttributes CipherVector :=
  aggregated true t.

(** The same tree with the children of any of its nodes in another
    order. *)
Inductive reordered : AggTree → AggTree → Prop :=
| reordered_node DataReference children children' children'' :
    Forall2 reordered children children' →
    children' ≡ₚ children'' →
    reordered (AggNode DataReference children)
              (AggNode DataReference children'').

(** The groups some node of the tree holds in its data reference. *)
Fixpoint heldGroups (t : AggTree) : gset GroupingAttributes :=
  match t with
  | AggNode DataReference children =>
      dom (default ∅ DataReference) ∪ ⋃ (map heldGroups children)
  end.

(** How many of the children's messages report [group]. *)
Definition reporting (group : GroupingAttributes)
    (children : list (gmap GroupingAttributes CipherVector)) : nat :=
  length (filter (λ child, is_Some (child !! group)) children).

End PrivateAggregate.

(** ** The service (services/medco/medco.go) *)

(** The packages the service calls and the sources do not contain: the
    tree construction of sda, the survey store (services/medco/store) and
    the conversions of services/medco/structs.  They are taken as they are
    called, the store as a value that every operation returns updated. *)
Class Collaborators `{Suite} (GroupingAttributes : Type)
    `{Countable GroupingAttributes} := {
  Tree : Type;
  GenerateBinaryTree : list Entity → Tree;
  Survey : Type;
  ClientResponse : Type;
  SurveyResult : Type;
  NewSurvey : Survey;
  InsertClientResponse : ClientResponse → Survey → Survey;
  PollProbabilisticGroupingAttributes :
    Survey → Survey * gmap UUID CipherVector;
  PushDeterministicGroupingAttributes :
    gmap UUID GroupingAttributes → Survey → Survey;
  PollLocallyAggregatedResponses :
    Survey → Survey * gmap GroupingAttributes CipherVector;
  PushCothorityAggregatedGroups :
    gmap GroupingAttributes CipherVector → Survey → Survey;
  PollCothorityAggregatedGroups :
    Survey → Survey * (gmap UUID GroupingAttributes * gmap UUID CipherVector);
  PushQuerierKeyEncryptedData :
    gmap UUID CipherVector → gmap UUID CipherVector → Survey → Survey;
  PollDeliverableResults : Survey → Survey * list SurveyResult;
  DeterministicCipherVectorToGroupingAttributes :
    DeterministCipherVector → GroupingAttributes + error;
  GroupingAttributesToDeterministicCipherVector :
    GroupingAttributes → DeterministCipherVector
}.

(** What a handler of the service did: it returned a value, it blocks for
    ever on a channel nobody writes to, or it panicked. *)
Inductive call (A : Type) : Type :=
| Ret (a : A)
| Block
| Crash.
Arguments Ret {A} a.
Arguments Block {A}.
Arguments Crash {A}.

Definition call_bind {A B} (f : A → call B) (c : call A) : call B :=
  match c with Ret a => f a | Block => Block | Crash => Crash end.
#[global] Instance call_mbind : MBind call := @call_bind.

(** [<- channel]: the value written to the channel, if one ever is. *)
Definition receive {A} (written : option A) : call A :=
  match written with Some a => Ret a | None => Block end.

Section Service.
Context `{Suite} {GroupingAttributes : Type} `{Countable GroupingAttributes}.
Context {collaborators : Collaborators GroupingAttributes}.

Record MedcoService := {
  mcsEntity : Entity;                  (* mcs.Entity(), mcs.Context.Entity() *)
  entityList : option (list Entity);   (* entityList.List; nil at first *)
  tree : option Tree;
  store : option Survey;
  surveyPHKey : option Secret
}.

Record SurveyCreationQuery := { scqEntityList : list Entity }.
Record SurveyResultsQuery := { ClientPublic : Point }.

Inductive ProtocolMessage :=
| ServiceResponse (code : Z)
| SurveyResultResponse (results : list SurveyResult).

(** [mcs.SendRaw(e, msg)] with the creation query as the message. *)
Inductive SendRaw := SendRawTo (e : Entity) (msg : SurveyCreationQuery).

(** [HandleSurveyCreationQuery]; [picked] is the secret picked from
    [random.Stream].  The four fields are assigned before anything else;
    [entityList.List[0]] panics on an empty list.  Returns the service
    after the call, the raw messages sent and the reply. *)
Definition HandleSurveyCreationQuery (mcs : MedcoService)
    (recq : SurveyCreationQuery) (picked : Secret)
    : MedcoService * list SendRaw * call (ProtocolMessage * option error) :=
  let mcs' := {| mcsEntity := mcsEntity mcs;
                 entityList := Some (scqEntityList recq);
                 tree := Some (GenerateBinaryTree (scqEntityList recq));
                 store := Some NewSurvey;
                 surveyPHKey := Some picked |} in
  match scqEntityList recq with
  | [] => (mcs', [], Crash)
  | root :: _ =>
      let sent :=
        if decide (mcsEntity mcs' = root)
        then (λ e, SendRawTo e recq) <$>
               filter (λ e, e ≠ mcsEntity mcs') (scqEntityList recq)
        else [] in
      (mcs', sent, Ret (ServiceResponse 1, None))
  end.

(** [HandleSurveyResponseData]: the store pointer is nil before the first
    survey is created, and the store's methods read through it. *)
Definition HandleSurveyResponseData (mcs : MedcoService)
    (resp : ClientResponse)
    : MedcoService * call (ProtocolMessage * option error) :=
  match store mcs with
  | None => (mcs, Crash)
  | Some st =>
      ({| mcsEntity := mcsEntity mcs; entityList := entityList mcs;
          tree := tree mcs; store := Some (InsertClientResponse resp st);
          surveyPHKey := surveyPHKey mcs |},
       Ret (ServiceResponse 1, None))
  end.

(** What the rest of the system does during one results query: the tree
    node instance the service obtains, the error of [RegisterChannel] in
    each protocol constructor, and what arrives on each protocol's
    feedback channel ([None]: nothing ever does). *)
Record World := {
  wNode : TreeNodeInstance;
  wRegisterDS : option error;
  wRegisterPA : option error;
  wRegisterKS : option error;
  wRegisterPS : option error;
  wFeedbackDS : option (gmap UUID DeterministCipherVector);
  wFeedbackPA : option (gmap GroupingAttributes CipherVector);
  wFeedbackKS : option (gmap UUID CipherVector);
  wFeedbackPS : option (gmap UUID CipherVector)
}.

(** The conversion loop of [flushCollectedData]: the first error met
    ends it. *)
Definition convertAll (res : gmap UUID DeterministCipherVector)
    : gmap UUID GroupingAttributes + error :=
  map_fold (λ k v acc,
              match acc with
              | inr e => inr e
              | inl m =>
                  match DeterministicCipherVectorToGroupingAttributes v with
                  | inl g => inl (<[k := g]> m)
                  | inr e => inr e
                  end
              end) (inl ∅) res.

Definition instantiationError : error :=
  "Could not instanciate the required protocols".

(** [flushCollectedData], on the store the service holds: the store after
    the call and the returned error. *)
Definition flushCollectedData (w : World) (st : Survey)
    : call (Survey * option error) :=
  let '(st1, probabilisticGroupingAttributes) :=
    PollProbabilisticGroupingAttributes st in
  match NewDeterministSwitchingProtocol (wNode w) (wRegisterDS w) with
  | inr _ => Ret (st1, Some instantiationError)
  | inl _ =>
      deterministicSwitchedResult ← receive (wFeedbackDS w);
      match convertAll deterministicSwitchedResult with
      | inr e => Ret (st1, Some e)
      | inl deterministicGroupAttributes =>
          Ret (PushDeterministicGroupingAttributes
                 deterministicGroupAttributes st1, None)
      end
  end.

(** [flushGroupedData].  [NewPrivateAggregate] fails exactly when one of
    its two [RegisterChannel] calls does. *)
Definition flushGroupedData (w : World) (st : Survey)
    : call (Survey * option error) :=
  let '(st1, groupedData) := PollLocallyAggregatedResponses st in
  match wRegisterPA w with
  | Some _ => Ret (st1, Some instantiationError)
  | None =>
      cothorityAggregatedData ← receive (wFeedbackPA w);
      Ret (PushCothorityAggregatedGroups cothorityAggregatedData st1, None)
  end.

(** [flushAggregatedData]. *)
Definition flushAggregatedData (w : World) (querierKey : Point) (st : Survey)
    : call (Survey * option error) :=
  let '(st1, (aggregatedGroups, aggregatedAttributes)) :=
    PollCothorityAggregatedGroups st in
  match NewKeySwitchingProtocol (wNode w) (wRegisterKS w) with
  | inr _ => Ret (st1, Some instantiationError)
  | inl _ =>
      keySwitchedAggregatedAttributes ← receive (wFeedbackKS w);
      match wRegisterPS w with
      | Some _ => Ret (st1, Some instantiationError)
      | None =>
          keySwitchedAggregatedGroups ← receive (wFeedbackPS w);
          Ret (PushQuerierKeyEncryptedData keySwitchedAggregatedGroups
                 keySwitchedAggregatedAttributes st1, None)
      end
  end.

(** [HandleSurveyResultsQuery]: the three flushes in order, their
    returned errors not being read, then the reply. *)
Definition HandleSurveyResultsQuery (w : World) (mcs : MedcoService)
    (resq : SurveyResultsQuery)
    : call (MedcoService * (ProtocolMessage * option error)) :=
  match store mcs, tree mcs with
  | Some st, Some _ =>
      r1 ← flushCollectedData w st;
      r2 ← flushGroupedData w r1.1;
      r3 ← flushAggregatedData w (ClientPublic resq) r2.1;
      let '(st4, results) := PollDeliverableResults r3.1 in
      Ret ({| mcsEntity := mcsEntity mcs; entityList := entityList mcs;
              tree := tree mcs; store := Some st4;
              surveyPHKey := surveyPHKey mcs |},
           (SurveyResultResponse results, None))
  | _, _ => Crash
  end.

End Service.

(** ** Concrete inputs, over the integers *)

Definition zct (k c : Z) : @CipherText ZSuite := @Build_CipherText ZSuite k c.

(** A node holding group 7 and a child reporting groups 7 and 8. *)
Definition localOf7 : gmap N (list (@CipherText ZSuite)) :=
  {[ 7%N := [zct 1 2] ]}.
Definition childOf78 : gmap N (list (@CipherText ZSuite)) :=
  <[ 7%N := [zct 10 20] ]> {[ 8%N := [zct 5 5] ]}.
Definition childOf8 : gmap N (list (@CipherText ZSuite)) :=
  {[ 8%N := [zct 3 4] ]}.

Definition treeA : @AggTree ZSuite N _ _ :=
  AggNode (Some localOf7)
    [AggNode (Some childOf78) []; AggNode (Some childOf8) []].
Definition treeB : @AggTree ZSuite N _ _ :=
  AggNode (Some localOf7)
    [AggNode (Some childOf8) []; AggNode (Some childOf78) []].

(** A ring of three servers, node 0 being the root, with the secrets
    3, 4, 5 (collective key 12·B) and a survey with the shares 1, 2, 3. *)
Definition zNode (self : N) (isRoot : bool) (private : Z)
    : @TreeNodeInstance ZSuite :=
  @Build_TreeNodeInstance ZSuite [0%N; 1%N; 2%N] self isRoot false private.

Definition zDS (self : N) (isRoot : bool) (private phKey : Z)
    : @DeterministicSwitchingProtocol ZSuite :=
  {| dsNode := zNode self isRoot private;
     dsNextNodeInCircuit := nextInCircuit [0%N; 1%N; 2%N] self;
     dsTargetOfSwitch := None;
     dsSurveyPHKey := Some phKey |}.

Definition zRingDS : list (@DeterministicSwitchingProtocol ZSuite) :=
  [zDS 1 false 4 2; zDS 2 false 5 3; zDS 0 true 3 1].

(** The same servers in a second survey, with the shares 2, 2, 3. *)
Definition zRingDS' : list (@DeterministicSwitchingProtocol ZSuite) :=
  [zDS 1 false 4 2; zDS 2 false 5 3; zDS 0 true 3 2].

(** Two cipher texts of the message point 10 under the collective key 12,
    with the ephemeral secrets 1 and 2. *)
Definition zc1 : @CipherText ZSuite := zct 1 22.
Definition zc2 : @CipherText ZSuite := zct 2 34.

Definition zKS (self : N) (isRoot : bool) (private : Z)
    : @KeySwitchingProtocol ZSuite :=
  {| ksNode := zNode self isRoot private;
     ksNextNodeInCircuit := nextInCircuit [0%N; 1%N; 2%N] self;
     ksTargetOfSwitch := None;
     ksTargetPublicKey := None |}.

(** The instances of the ring other than the root, picking the randomness
    7 and 8. *)
Definition zRingKS : list (@KeySwitchingProtocol ZSuite * Z) :=
  [(zKS 1 false 4, 7%Z); (zKS 2 false 5, 8%Z)].

(** One row, the cipher text [zc1], to be switched to the key 100·B. *)
Definition zTarget : gmap N (list (@CipherText ZSuite)) := {[ 1%N := [zc1] ]}.

(** The root as the service sets it up before [Start]. *)
Definition zStartKS : @KeySwitchingProtocol ZSuite :=
  {| ksNode := zNode 0 true 3;
     ksNextNodeInCircuit := nextInCircuit [0%N; 1%N; 2%N] 0%N;
     ksTargetOfSwitch := Some zTarget;
     ksTargetPublicKey := Some 100%Z |}.

(** Collaborators for the concrete runs: the store is the list of the
    collected responses, which are the deliverable results. *)
Definition zCollaborators : @Collaborators ZSuite N _ _ :=
  {| Tree := list N;
     GenerateBinaryTree := id;
     Survey := list Z;
     ClientResponse := Z;
     SurveyResult := Z;
     NewSurvey := [];
     InsertClientResponse := cons;
     PollProbabilisticGroupingAttributes := λ st, (st, ∅);
     PushDeterministicGroupingAttributes := λ _ st, st;
     PollLocallyAggregatedResponses := λ st, (st, ∅);
     PushCothorityAggregatedGroups := λ _ st, st;
     PollCothorityAggregatedGroups := λ st, (st, (∅, ∅));
     PushQuerierKeyEncryptedData := λ _ _ st, st;
     PollDeliverableResults := λ st, ([], st);
     DeterministicCipherVectorToGroupingAttributes := λ _, inl 0%N;
     GroupingAttributesToDeterministicCipherVector := λ _, [] |}.

(** A server that holds a survey with the one response 5. *)
Definition zService : @MedcoService ZSuite N _ _ zCollaborators :=
  @Build_MedcoService ZSuite N _ _ zCollaborators
    0%N (Some [0%N; 1%N; 2%N]) (Some [0%N; 1%N; 2%N]) (Some [5%Z]) (Some 1%Z).

(** A results query during which the constructor of the first protocol
    fails; the other phases deliver. *)
Definition zFailingWorld : @World ZSuite N _ _ :=
  @Build_World ZSuite N _ _ (zNode 0 true 3)
    (Some "channel already registered") None None None
    (Some ∅) (Some ∅) (Some ∅) (Some ∅).

Definition zQuery : @SurveyResultsQuery ZSuite :=
  @Build_SurveyResultsQuery ZSuite 100%Z.

(** The reply that carries the stored response as the result. *)
Definition zReply : @ProtocolMessage ZSuite N _ _ zCollaborators :=
  @SurveyResultResponse ZSuite N _ _ zCollaborators [5%Z].

(** Node 1 of the ring as the constructor returns it. *)
Definition zFreshDS : @DeterministicSwitchingProtocol ZSuite :=
  {| dsNode := zNode 1 false 4;
     dsNextNodeInCircuit := nextInCircuit [0%N; 1%N; 2%N] 1%N;
     dsTargetOfSwitch := None;
     dsSurveyPHKey := None |}.

(** A target map whose one row has no component, the root set up to
    switch it, and the message its [Start] sends. *)
Definition zEmptyRows : gmap N (list (@CipherText ZSuite)) := {[ 1%N := [] ]}.
Definition zStartEmptyKS : @KeySwitchingProtocol ZSuite :=
  @Build_KeySwitchingProtocol ZSuite (zNode 0 true 3)
    (nextInCircuit [0%N; 1%N; 2%N] 0%N) (Some zEmptyRows) (Some 100%Z).
Definition zEmptyRowsMessage : @KeySwitchedCipherMessage ZSuite :=
  @Build_KeySwitchedCipherMessage ZSuite zEmptyRows 100%Z ∅.

(** A message node 1 receives: the row of [zc1] with K cleared, and the
    original ephemeral key 1 of its component. *)
Definition zBeforeNode1 : @KeySwitchedCipherMessage ZSuite :=
  @Build_KeySwitchedCipherMessage ZSuite
    {[ 1%N := [zct 0 22] ]} 100%Z {[ 1%N := [1%Z] ]}.

(** That message after node 1 (secret 4, randomness 7). *)
Definition zAfterNode1 : @KeySwitchedCipherMessage ZSuite :=
  @Build_KeySwitchedCipherMessage ZSuite
    {[ 1%N := [zct 7 718] ]} 100%Z {[ 1%N := [1%Z] ]}.

(** The root of an aggregation, with the data reference [localOf7]. *)
Definition zRootPA : @PrivateAggregateProtocol ZSuite N _ _ :=
  @Build_PrivateAggregateProtocol ZSuite N _ _ (zNode 0 true 3) (Some localOf7).

(** * Properties *)

(** ** Private Aggregation *)

Section PrivateAggregateFacts.
Context `{Suite} {GroupingAttributes : Type} `{Countable GroupingAttributes}.
Implicit Types (m local : gmap GroupingAttributes CipherVector).
Implicit Types (child : gmap GroupingAttributes CipherVector).

Lemma foldGroup_lookup m group g :
  foldGroup m group !! g =
    if decide (group = g)
    then Some (match m !! g with Some v => cvAdd v v | None => [] end)
    else m !! g.
Proof.
  unfold foldGroup. case_decide as Hg.
  - subst g. destruct (m !! group); by rewrite lookup_insert_eq.
  - destruct (m !! group); by rewrite lookup_insert_ne.
Qed.

(** The fold of one child, entry by entry: a group of the child gets the
    local vector added to itself, or the nil vector when the node had
    none; the other groups are untouched. *)
Lemma foldChild_lookup local child g :
  foldChild local child !! g =
    match child !! g with
    | Some _ => Some (match local !! g with Some v => cvAdd v v | None => [] end)
    | None => local !! g
    end.
Proof.
  unfold foldChild. revert g.
  apply (map_fold_weak_ind (λ r (c : gmap GroupingAttributes CipherVector),
    ∀ g, r !! g = match c !! g with
                  | Some _ => Some (match local !! g with
                                    | Some v => cvAdd v v | None => [] end)
                  | None => local !! g
                  end)).
  - intros g. by rewrite lookup_empty.
  - intros i x c r Hi IH g. rewrite foldGroup_lookup. case_decide as Hg.
    + subst g. rewrite lookup_insert_eq, IH, Hi. done.
    + rewrite lookup_insert_ne by done. apply IH.
Qed.

Lemma foldChild_comm local child1 child2 :
  foldChild (foldChild local child1) child2 =
  foldChild (foldChild local child2) child1.
Proof.
  apply map_eq. intros g. rewrite !foldChild_lookup.
  destruct (child1 !! g), (child2 !! g), (local !! g); done.
Qed.

Lemma foldl_foldChild_perm (l1 l2 : list (gmap GroupingAttributes CipherVector)) :
  l1 ≡ₚ l2 → ∀ local, foldl foldChild local l1 = foldl foldChild local l2.
Proof.
  induction 1 as [|x l1 l2 _ IH|x y l|l1 l2 l3 _ IH1 _ IH2]; intros local; simpl.
  - done.
  - apply IH.
  - by rewrite foldChild_comm.
  - by rewrite IH1, IH2.
Qed.

Lemma ascendingAggregationPhase_perm isRoot localContribution
    (l1 l2 : list (gmap GroupingAttributes CipherVector)) :
  l1 ≡ₚ l2 →
  (ascendingAggregationPhase (bool_decide (l1 = [])) isRoot localContribution l1).1
  = (ascendingAggregationPhase (bool_decide (l2 = [])) isRoot localContribution l2).1.
Proof.
  intros Hp. unfold ascendingAggregationPhase. simpl.
  rewrite (foldl_foldChild_perm _ _ Hp).
  destruct l1 as [|a1 l1], l2 as [|a2 l2].
  - done.
  - by apply Permutation_nil_cons in Hp.
  - symmetry in Hp. by apply Permutation_nil_cons in Hp.
  - by rewrite !bool_decide_eq_false_2 by done.
Qed.

Lemma AggTree_nested_ind (P : @AggTree _ GroupingAttributes _ _ → Prop) :
  (∀ d children, Forall P children → P (AggNode d children)) → ∀ t, P t.
Proof.
  intros Hnode. fix IH 1. intros [d children]. apply Hnode.
  induction children as [|c children IHc]; constructor; [apply IH | exact IHc].
Qed.

Lemma aggregated_node isRoot d (children : list (@AggTree _ GroupingAttributes _ _)) :
  aggregated isRoot (AggNode d children) =
  (ascendingAggregationPhase (bool_decide (aggregated false <$> children = []))
     isRoot d (aggregated false <$> children)).1.
Proof.
  simpl. unfold ascendingAggregationPhase. simpl.
  destruct children; done.
Qed.

Lemma aggregated_reordered (t : @AggTree _ GroupingAttributes _ _) :
  ∀ t' isRoot, reordered t t' → aggregated isRoot t = aggregated isRoot t'.
Proof.
  induction t as [d children IH] using AggTree_nested_ind.
  intros t' isRoot Hr. inversion Hr as [d' cs cs' cs'' Hall Hperm]; subst.
  rewrite !aggregated_node.
  assert (aggregated false <$> children = aggregated false <$> cs') as ->.
  { clear Hperm Hr. induction Hall as [|c c' cs cs' Hc _ IHall]; [done|].
    inversion IH as [|? ? Hhead Htail]; subst. simpl. f_equal.
    - by apply Hhead.
    - by apply IHall. }
  apply ascendingAggregationPhase_perm. by apply fmap_Permutation.
Qed.

End PrivateAggregateFacts.

(** C1: in the fold of a child's contribution, the entry of a group the
    child reports is computed from the node's own map alone: the local
    vector added to itself when the node has the group, the nil vector
    when it has not.  The child's vector is not part of the result. *)
Theorem foldChild_ignores_child_vector `{Suite} {GroupingAttributes : Type}
    `{Countable GroupingAttributes}
    (isRoot : bool) (local child : gmap GroupingAttributes CipherVector)
    (group : GroupingAttributes) (vector : CipherVector) :
  child !! group = Some vector →
  (ascendingAggregationPhase false isRoot (Some local) [child]).1 !! group
  = Some (match local !! group with
          | Some localVector => cvAdd localVector localVector
          | None => []
          end).
Proof.
  intros Hc. unfold ascendingAggregationPhase. simpl.
  rewrite foldChild_lookup, Hc. done.
Qed.

(** The node holds group 7 with the vector [(1,2)] and the child reports
    [(10,20)] for group 7 and [(5,5)] for group 8: the result has [(2,4)]
    for group 7, not the sum [(11,22)], and the nil vector for group 8,
    not [(5,5)]. *)
Lemma foldChild_ignores_child_vector_witness :
  childOf78 !! 7%N = Some [zct 10 20] ∧
  (ascendingAggregationPhase false true (Some localOf7) [childOf78]).1 !! 7%N
    = Some [zct 2 4] ∧
  cvAdd [zct 1 2] [zct 10 20] = [zct 11 22] ∧
  (ascendingAggregationPhase false true (Some localOf7) [childOf78]).1 !! 8%N
    = Some [].
Proof.
  split; [vm_compute; reflexivity|].
  split; [exact (foldChild_ignores_child_vector (H:=ZSuite) true localOf7
                   childOf78 7%N [zct 10 20] eq_refl)|].
  split; [reflexivity|].
  exact (foldChild_ignores_child_vector (H:=ZSuite) true localOf7
           childOf78 8%N [zct 5 5] eq_refl).
Defined.

(** C6: the map the root delivers is the same for every order of the
    children at every node of the tree. *)
Theorem delivered_order_independent `{Suite} {GroupingAttributes : Type}
    `{Countable GroupingAttributes}
    (t t' : @AggTree _ GroupingAttributes _ _) :
  reordered t t' → delivered t = delivered t'.
Proof. intros Hr. unfold delivered. by apply aggregated_reordered. Qed.

Lemma treeA_reordered_treeB : reordered treeA treeB.
Proof.
  unfold treeA, treeB.
  eapply reordered_node; [|apply perm_swap].
  repeat constructor;
    (eapply reordered_node; [apply Forall2_nil_2|reflexivity]).
Defined.

Lemma delivered_order_independent_witness :
  reordered treeA treeB ∧ delivered treeA = delivered treeB.
Proof.
  split; [exact treeA_reordered_treeB|].
  exact (delivered_order_independent treeA treeB treeA_reordered_treeB).
Defined.

(** ** The group laws the ring sums need *)

Section SuiteFacts.
Context `{Suite}.

Lemma PAdd_cancel_r P Q R : PAdd P R = PAdd Q R → P = Q.
Proof.
  intros Heq. rewrite <- (PAdd_PSub P R), <- (PAdd_PSub Q R). by rewrite Heq.
Qed.

Lemma PAdd_cancel_l P Q R : PAdd R P = PAdd R Q → P = Q.
Proof. rewrite !(PAdd_comm R). apply PAdd_cancel_r. Qed.

Lemma PAdd_Null_r P : PAdd P Null = P.
Proof. rewrite PAdd_comm. apply PAdd_Null_l. Qed.

Lemma PSub_Null_r P : PSub P Null = P.
Proof. rewrite <- (PAdd_Null_r P) at 1. apply PAdd_PSub. Qed.

Lemma PSub_PAdd_swap P Q R : PAdd (PSub P Q) R = PSub (PAdd P R) Q.
Proof.
  apply (PAdd_cancel_r _ _ Q). rewrite PSub_PAdd.
  rewrite <- PAdd_assoc, (PAdd_comm R Q), PAdd_assoc. by rewrite PSub_PAdd.
Qed.

Lemma PSub_PSub P Q R : PSub (PSub P Q) R = PSub P (PAdd Q R).
Proof.
  apply (PAdd_cancel_r _ _ (PAdd Q R)). rewrite PSub_PAdd.
  rewrite (PAdd_comm Q R), PAdd_assoc. by rewrite !PSub_PAdd.
Qed.

(** Two partial switches in a row amount to one with the summed terms. *)
Lemma two_partials P a x b y :
  PAdd (PSub (PAdd (PSub P a) x) b) y = PAdd (PSub P (PAdd a b)) (PAdd x y).
Proof.
  rewrite (PSub_PAdd_swap P a x), PSub_PSub.
  rewrite !PSub_PAdd_swap. by rewrite PAdd_assoc.
Qed.

Lemma Mul_sumSecrets P (l : list Secret) :
  Mul P (sumSecrets l) = sumPoints ((λ s, Mul P s) <$> l).
Proof.
  induction l as [|s l IH]; simpl.
  - apply Mul_SZero.
  - by rewrite Mul_SAdd, IH.
Qed.

Lemma collectiveKey_sum (privates : list Secret) :
  collectiveKey privates = Mul Base (sumSecrets privates).
Proof. unfold collectiveKey. by rewrite Mul_sumSecrets. Qed.

(** Under the collective key, the servers' shares of the ephemeral key sum
    up to the mask of the message. *)
Lemma encrypts_unmask privates M k c :
  encrypts (collectiveKey privates) M k c →
  PSub (C c) (Mul (K c) (sumSecrets privates)) = M.
Proof.
  intros [HK HC]. rewrite HC, HK, collectiveKey_sum.
  rewrite (Mul_Mul_comm Base k). apply PAdd_PSub.
Qed.

End SuiteFacts.

(** ** Loops over maps *)

Section LoopFacts.
Context `{Countable Key} {A : Type}.

Lemma rangeUpdate_total (f : Key → A → A) (m : gmap Key A) :
  rangeUpdate (λ k a, Some (f k a)) m = Some (map_imap (λ k a, Some (f k a)) m).
Proof.
  unfold rangeUpdate. rewrite decide_True; [done|].
  intros k a _. by eexists.
Qed.

Lemma rangeUpdate_Some (body : Key → A → option A) (m m' : gmap Key A) :
  rangeUpdate body m = Some m' →
  ∀ k a, m !! k = Some a → ∃ a', body k a = Some a' ∧ m' !! k = Some a'.
Proof.
  unfold rangeUpdate. case_decide as Hall; [|done]. intros [= <-] k a Hk.
  destruct (Hall k a Hk) as [a' Ha']. exists a'. split; [done|].
  rewrite map_lookup_imap, Hk. done.
Qed.

Lemma rangeUpdate_pointwise (body : Key → A → option A) (g : Key → A → A)
    (m : gmap Key A) :
  (∀ k a, m !! k = Some a → body k a = Some (g k a)) →
  rangeUpdate body m = Some (map_imap (λ k a, Some (g k a)) m).
Proof.
  intros Hb. unfold rangeUpdate. rewrite decide_True.
  - f_equal. apply map_eq. intros k. rewrite !map_lookup_imap.
    destruct (m !! k) as [a|] eqn:Hk; simpl; [by apply Hb|done].
  - intros k a Hk. rewrite (Hb k a Hk). by eexists.
Qed.

(** An assignment into the slice of an absent key panics, whatever the
    index. *)
Lemma assignAt_absent (m : gmap Key (list A)) k i v :
  m !! k = None → assignAt m k i v = None.
Proof. unfold assignAt. by intros ->. Qed.

End LoopFacts.

(** ** Deterministic Switching *)

Section DeterministicSwitchingFacts.
Context `{Suite}.

Lemma mapRows_lookup {A} (f : CipherText → A) (data : gmap UUID CipherVector) k :
  mapRows f data !! k = (λ cv : CipherVector, f <$> cv) <$> data !! k.
Proof. unfold mapRows. apply lookup_fmap. Qed.

Lemma mapRows_ext {A} (f g : CipherText → A) (data : gmap UUID CipherVector) :
  (∀ c, f c = g c) → mapRows f data = mapRows g data.
Proof.
  intros Hfg. apply map_eq. intros k. rewrite !mapRows_lookup.
  destruct (data !! k) as [cv|]; simpl; [|done].
  f_equal. by apply list_fmap_ext.
Qed.

Lemma mapRows_id (data : gmap UUID CipherVector) : mapRows id data = data.
Proof.
  apply map_eq. intros k. rewrite mapRows_lookup.
  destruct (data !! k) as [cv|]; simpl; [|done]. by rewrite list_fmap_id.
Qed.

Lemma mapRows_compose (f g : CipherText → CipherText)
    (data : gmap UUID CipherVector) :
  mapRows g (mapRows f data) = mapRows (g ∘ f) data.
Proof.
  apply map_eq. intros k. rewrite !mapRows_lookup.
  destruct (data !! k) as [cv|]; simpl; [|done].
  by rewrite <- list_fmap_compose.
Qed.

Lemma dsSwitchAll_Some p phKey (data : gmap UUID CipherVector) :
  dsSurveyPHKey p = Some phKey →
  dsSwitchAll p data =
    Some (mapRows (ctSwitchToDeterministic (tniPrivate (dsNode p)) phKey) data).
Proof.
  intros Hkey. unfold dsSwitchAll.
  rewrite (rangeUpdate_pointwise _
             (λ _ elem, cvSwitchToDeterministic (tniPrivate (dsNode p)) phKey elem)).
  - f_equal. apply map_eq. intros k.
    rewrite map_lookup_imap, mapRows_lookup. by destruct (data !! k).
  - intros k a _. by rewrite Hkey.
Qed.

Lemma dsSwitchRing_switched hops phKeys :
  Forall2 (λ p phKey, dsSurveyPHKey p = Some phKey) hops phKeys →
  ∀ data, dsSwitchRing hops data =
          Some (mapRows (dsSwitched (dsPrivates hops) phKeys) data).
Proof.
  induction 1 as [|p phKey hops phKeys Hkey _ IH]; intros data; simpl.
  - f_equal. rewrite <- (mapRows_id data) at 1. apply mapRows_ext.
    intros [k c]. unfold dsSwitched. simpl.
    by rewrite !Mul_SZero, PSub_Null_r, PAdd_Null_r.
  - rewrite (dsSwitchAll_Some p phKey) by done. simpl.
    rewrite IH, mapRows_compose. f_equal. apply mapRows_ext.
    intros [k c]. unfold dsSwitched, ctSwitchToDeterministic. simpl.
    by rewrite two_partials, !Mul_SAdd.
Qed.

Lemma dsLabel_switched hops phKeys c :
  Forall2 (λ p phKey, dsSurveyPHKey p = Some phKey) hops phKeys →
  dsLabel hops c = Some {| DC := C (dsSwitched (dsPrivates hops) phKeys c) |}.
Proof.
  intros Hkeys. unfold dsLabel. rewrite (dsSwitchRing_switched _ _ Hkeys). simpl.
  rewrite mapRows_lookup, lookup_singleton_eq. done.
Qed.

Lemma foldl_extract_None (k : UUID) (l : list (nat * CipherText)) :
  foldl (λ acc ic, m ← acc; assignAt m k ic.1 {| DC := C ic.2 |}) None l = None.
Proof. induction l as [|ic l IH]; [done|]. simpl. apply IH. Qed.

Lemma dsExtractRow_None k cv : dsExtractRow k cv None = None.
Proof. apply foldl_extract_None. Qed.

Lemma dsExtractRow_empty k cv :
  dsExtractRow k cv (Some ∅) = if decide (cv = []) then Some ∅ else None.
Proof.
  destruct cv as [|c cv]; [done|]. rewrite decide_False by done.
  unfold dsExtractRow. simpl. rewrite assignAt_absent by apply lookup_empty.
  apply foldl_extract_None.
Qed.

(** The extraction at the root succeeds on empty rows only: the map it
    assigns into never gets a slice to index. *)
Lemma dsExtract_nonempty (data : gmap UUID CipherVector) k cv :
  data !! k = Some cv → cv ≠ [] → dsExtract data = None.
Proof.
  unfold dsExtract. revert k cv.
  apply (map_fold_weak_ind (λ r (m : gmap UUID CipherVector),
    (r = None ∨ r = Some ∅) ∧
    ∀ k cv, m !! k = Some cv → cv ≠ [] → r = None)).
  - split; [by right|]. intros k cv. by rewrite lookup_empty.
  - intros i x m r Hi [Hr IH]. split.
    + destruct Hr as [->| ->].
      * left. apply dsExtractRow_None.
      * rewrite dsExtractRow_empty. case_decide; auto.
    + intros k cv Hk Hne. destruct (decide (i = k)) as [->|Hik].
      * rewrite lookup_insert_eq in Hk. injection Hk as ->.
        destruct Hr as [->| ->]; [apply dsExtractRow_None|].
        rewrite dsExtractRow_empty. by rewrite decide_False.
      * rewrite lookup_insert_ne in Hk by done.
        rewrite (IH k cv Hk Hne). apply dsExtractRow_None.
Qed.

End DeterministicSwitchingFacts.

(** C4: at the root, [Dispatch] on a map with a row that has a component
    panics in the extraction loop; nothing is delivered on the feedback
    channel. *)
Theorem dsDispatch_root_panics `{Suite} (p : DeterministicSwitchingProtocol)
    (msg : DeterministicSwitchedMessage) (sendErr : option error)
    (k : UUID) (cv : CipherVector) :
  tniIsRoot (dsNode p) = true →
  dsData msg !! k = Some cv →
  cv ≠ [] →
  dsDispatch p msg sendErr = Panicked.
Proof.
  intros Hroot Hk Hne. unfold dsDispatch.
  destruct (dsSwitchAll p (dsData msg)) as [data|] eqn:Hsw; [|done].
  rewrite Hroot.
  destruct (rangeUpdate_Some _ _ _ Hsw k cv Hk) as (cv' & Hbody & Hk').
  destruct (dsSurveyPHKey p) as [phKey|]; [|done]. simpl in Hbody.
  injection Hbody as <-.
  rewrite (dsExtract_nonempty data k _ Hk'); [done|].
  destruct cv; done.
Qed.

Lemma dsDispatch_root_panics_witness :
  tniIsRoot (dsNode (zDS 0 true 3 1)) = true ∧
  ({[ 1%N := [zc1] ]} : gmap N (list (@CipherText ZSuite))) !! 1%N = Some [zc1] ∧
  [zc1] ≠ [] ∧
  dsDispatch (zDS 0 true 3 1) {| dsData := {[ 1%N := [zc1] ]} |} None = Panicked.
Proof.
  split; [reflexivity|]. split; [reflexivity|]. split; [discriminate|].
  apply (dsDispatch_root_panics (H:=ZSuite) (zDS 0 true 3 1)
           {| dsData := {[ 1%N := [zc1] ]} |} None 1%N [zc1]);
    [reflexivity|reflexivity|discriminate].
Defined.

(** C5, as the ring computes it: the label of a cipher text of the message
    point [M] with the ephemeral key K is M + (Σπ_i)·K.  Cipher texts of
    the same message with the same K get the same label, and in a second
    survey of the same servers the label of the cipher text is another
    one exactly when (Σπ'_i)·K differs from (Σπ_i)·K. *)
Theorem dsLabel_plaintext_and_ephemeral_key `{Suite}
    (hops hops' : list DeterministicSwitchingProtocol)
    (phKeys phKeys' : list Secret) (M : Point) (k : Secret) (c : CipherText) :
  Forall2 (λ p phKey, dsSurveyPHKey p = Some phKey) hops phKeys →
  Forall2 (λ p phKey, dsSurveyPHKey p = Some phKey) hops' phKeys' →
  dsPrivates hops' = dsPrivates hops →
  encrypts (collectiveKey (dsPrivates hops)) M k c →
  dsLabel hops c = Some {| DC := PAdd M (Mul (K c) (sumSecrets phKeys)) |} ∧
  (∀ k2 c2, encrypts (collectiveKey (dsPrivates hops)) M k2 c2 →
            K c2 = K c → dsLabel hops c2 = dsLabel hops c) ∧
  (dsLabel hops' c ≠ dsLabel hops c ↔
   Mul (K c) (sumSecrets phKeys') ≠ Mul (K c) (sumSecrets phKeys)).
Proof.
  intros Hkeys Hkeys' Hpriv Henc.
  assert (∀ k2 c2, encrypts (collectiveKey (dsPrivates hops)) M k2 c2 →
            dsLabel hops c2 =
            Some {| DC := PAdd M (Mul (K c2) (sumSecrets phKeys)) |}) as Hlabel.
  { intros k2 c2 Henc2. rewrite (dsLabel_switched _ _ _ Hkeys).
    unfold dsSwitched. simpl. by rewrite (encrypts_unmask _ _ _ _ Henc2). }
  split; [by eapply Hlabel|]. split.
  - intros k2 c2 Henc2 HK. rewrite (Hlabel _ _ Henc2), (Hlabel _ _ Henc).
    by rewrite HK.
  - rewrite (Hlabel _ _ Henc), (dsLabel_switched _ _ _ Hkeys').
    unfold dsSwitched. simpl. rewrite Hpriv, (encrypts_unmask _ _ _ _ Henc).
    split.
    + intros Hne Heq. apply Hne. by rewrite Heq.
    + intros Hne [= Heq]. apply Hne. by eapply PAdd_cancel_l.
Qed.

Lemma zRingDS_keys :
  Forall2 (λ p phKey, dsSurveyPHKey p = Some phKey) zRingDS [2; 3; 1]%Z.
Proof. repeat constructor. Defined.

Lemma zRingDS'_keys :
  Forall2 (λ p phKey, dsSurveyPHKey p = Some phKey) zRingDS' [2; 3; 2]%Z.
Proof. repeat constructor. Defined.

Lemma zc1_encrypts :
  encrypts (H:=ZSuite) (collectiveKey (H:=ZSuite) (dsPrivates zRingDS))
           10%Z 1%Z zc1.
Proof. split; reflexivity. Defined.

Lemma zc2_encrypts :
  encrypts (H:=ZSuite) (collectiveKey (H:=ZSuite) (dsPrivates zRingDS))
           10%Z 2%Z zc2.
Proof. split; reflexivity. Defined.

Lemma dsLabel_plaintext_and_ephemeral_key_witness :
  dsLabel zRingDS zc1 = Some (@Build_DeterministCipherText ZSuite 16%Z) ∧
  dsLabel zRingDS' zc1 ≠ dsLabel zRingDS zc1.
Proof.
  pose proof (dsLabel_plaintext_and_ephemeral_key (H:=ZSuite)
                zRingDS zRingDS' [2; 3; 1]%Z [2; 3; 2]%Z 10%Z 1%Z zc1
                zRingDS_keys zRingDS'_keys eq_refl zc1_encrypts)
    as (Hlabel & _ & Hother).
  split; [exact Hlabel|]. apply Hother. simpl. discriminate.
Defined.

(** The two cipher texts [zc1] and [zc2] carry the same message point
    under the collective key, and the ring of the one survey gives them
    the labels 16 and 22. *)
Lemma dsLabel_same_plaintext_differs :
  encrypts (H:=ZSuite) (collectiveKey (H:=ZSuite) (dsPrivates zRingDS))
           10%Z 1%Z zc1 ∧
  encrypts (H:=ZSuite) (collectiveKey (H:=ZSuite) (dsPrivates zRingDS))
           10%Z 2%Z zc2 ∧
  dsLabel zRingDS zc1 ≠ dsLabel zRingDS zc2.
Proof.
  split; [exact zc1_encrypts|]. split; [exact zc2_encrypts|].
  vm_compute. discriminate.
Qed.

(** ** Key Switching *)

Section KeySwitchingFacts.
Context `{Suite}.

(** A row in flight, as a function [st] of the original components, is
    switched component by component with the original ephemeral keys. *)
Lemma cvSwitchForKey_row s newKey r (st : CipherText → CipherText)
    (cv0 : CipherVector) :
  cvSwitchForKey s (K <$> cv0) newKey r (st <$> cv0) =
  Some ((λ c0, ctSwitchForKey s (K c0) newKey r (st c0)) <$> cv0).
Proof.
  induction cv0 as [|c0 cv0 IH]; [done|]. simpl.
  change (cvSwitchForKey s (list_fmap _ _ K cv0) newKey r (list_fmap _ _ st cv0))
    with (cvSwitchForKey s (K <$> cv0) newKey r (st <$> cv0)).
  by rewrite IH.
Qed.

Lemma ksSwitchAll_inFlight p target newKey st r :
  ksSwitchAll p (ksInFlight target newKey st) r =
  Some (mapRows (λ c0, ctSwitchForKey (tniPrivate (ksNode p)) (K c0) newKey r
                         (st c0)) target).
Proof.
  unfold ksSwitchAll. simpl.
  set (s := tniPrivate (ksNode p)).
  rewrite (rangeUpdate_pointwise _
    (λ k _, (λ c0, ctSwitchForKey s (K c0) newKey r (st c0))
              <$> default [] (target !! k))).
  - f_equal. apply map_eq. intros k.
    rewrite map_lookup_imap, !mapRows_lookup.
    by destruct (target !! k).
  - intros k cv. rewrite !mapRows_lookup.
    destruct (target !! k) as [cv0|]; simpl; [|done].
    intros [= <-]. apply cvSwitchForKey_row.
Qed.

Lemma ksDispatch_inFlight p target newKey st r sendErr :
  ksDispatch p (ksInFlight target newKey st) r sendErr =
  let st' := λ c0, ctSwitchForKey (tniPrivate (ksNode p)) (K c0) newKey r (st c0) in
  if tniIsRoot (ksNode p)
  then Returned None [Feedback (mapRows st' target)]
  else Returned None
         [SendTo (ksNextNodeInCircuit p) (ksInFlight target newKey st') sendErr].
Proof. unfold ksDispatch. by rewrite ksSwitchAll_inFlight. Qed.

(** From a state [st] on, the hops add their sums to it. *)
Lemma ksRing_inFlight others root target newKey :
  Forall (λ h, tniIsRoot (ksNode h.1) = false) others →
  tniIsRoot (ksNode root.1) = true →
  ∀ st,
  ksRing (others ++ [root]) (ksInFlight target newKey st) =
  Some (Returned None [Feedback (mapRows (λ c0,
    {| K := PAdd (K (st c0))
                 (Mul Base (sumSecrets (ksRandomness (others ++ [root]))));
       C := PAdd (PSub (C (st c0))
                       (Mul (K c0) (sumSecrets (ksPrivates (others ++ [root])))))
                 (Mul newKey (sumSecrets (ksRandomness (others ++ [root])))) |})
    target)]).
Proof.
  intros Hothers Hroot.
  induction Hothers as [|[p r] others Hp _ IH]; intros st.
  - destruct root as [p r]. simpl in *.
    rewrite ksDispatch_inFlight, Hroot. simpl. do 4 f_equal.
    apply mapRows_ext. intros c0. unfold ctSwitchForKey. simpl.
    rewrite !Mul_SAdd, !Mul_SZero, !PAdd_Null_r. done.
  - simpl in *. rewrite ksDispatch_inFlight, Hp. simpl.
    rewrite IH. do 4 f_equal. apply mapRows_ext. intros c0.
    unfold ctSwitchForKey. simpl.
    rewrite two_partials, !Mul_SAdd, <- !PAdd_assoc. done.
Qed.

Lemma foldl_startRow_None (k : UUID) (l : list (nat * CipherText)) :
  foldl (λ (acc : option (CipherVector * gmap UUID (list Point))) ic,
           '(initialCipherVector, keys) ← acc;
           let initialCipherVector' :=
             alter (λ c0, {| K := K c0; C := C ic.2 |}) ic.1 initialCipherVector in
           keys' ← assignAt keys k ic.1 (K ic.2);
           Some (initialCipherVector', keys'))
        None l = None.
Proof. induction l as [|ic l IH]; [done|]. simpl. apply IH. Qed.

Lemma ksStartRow_absent k row (keys : gmap UUID (list Point)) :
  keys !! k = None →
  ksStartRow k row keys = if decide (row = []) then Some ([], keys) else None.
Proof.
  intros Hk. destruct row as [|c row]; [done|]. rewrite decide_False by done.
  unfold ksStartRow. simpl. rewrite (assignAt_absent _ _ _ _ Hk). simpl.
  apply foldl_startRow_None.
Qed.

(** The loop of [Start] succeeds on empty rows only: no slice is ever put
    into the map of original keys, so the first component of a row
    panics. *)
Lemma ksStartLoop_nonempty (target : gmap UUID CipherVector) k cv :
  target !! k = Some cv → cv ≠ [] → ksStartLoop target = None.
Proof.
  unfold ksStartLoop. revert k cv.
  apply (map_fold_weak_ind (λ r (m : gmap UUID CipherVector),
    (r = None ∨ ∃ initialMap, r = Some (initialMap, ∅)) ∧
    ∀ k cv, m !! k = Some cv → cv ≠ [] → r = None)).
  - split; [right; by eexists|]. intros k cv. by rewrite lookup_empty.
  - intros i x m r Hi [Hr IH].
    assert (∀ initialMap,
      (('(initialCipherVector, keys') ← ksStartRow i x ∅;
        Some (<[i := initialCipherVector]> initialMap, keys'))
       : option (gmap UUID CipherVector * gmap UUID (list Point)))
      = if decide (x = []) then Some (<[i := []]> initialMap, ∅) else None)
      as Hstep.
    { intros initialMap. rewrite ksStartRow_absent by apply lookup_empty.
      by case_decide. }
    split.
    + destruct Hr as [->|[initialMap ->]]; [by left|]. simpl.
      rewrite Hstep. case_decide; [right; by eexists|by left].
    + intros k cv Hk Hne. destruct (decide (i = k)) as [->|Hik].
      * rewrite lookup_insert_eq in Hk. injection Hk as ->.
        destruct Hr as [->|[initialMap ->]]; [done|]. simpl.
        rewrite Hstep. by rewrite decide_False.
      * rewrite lookup_insert_ne in Hk by done.
        by rewrite (IH k cv Hk Hne).
Qed.

Lemma ksStartLoop_all_empty (target : gmap UUID CipherVector) :
  map_Forall (λ _ cv, cv = []) target → ksStartLoop target = Some (target, ∅).
Proof.
  unfold ksStartLoop.
  apply (map_fold_weak_ind (λ r (m : gmap UUID CipherVector),
    map_Forall (λ _ (cv : CipherVector), cv = []) m → r = Some (m, ∅))).
  - done.
  - intros i x m r Hi IH [-> Hm]%map_Forall_insert; [|done].
    by rewrite (IH Hm).
Qed.

(** Rows without a component go through the loop of [Dispatch] as they
    are. *)
Lemma ksSwitchAll_empty_rows p (msg : KeySwitchedCipherMessage) r :
  map_Forall (λ _ cv, cv = []) (ksData msg) →
  ksSwitchAll p msg r = Some (ksData msg).
Proof.
  intros Hall. unfold ksSwitchAll.
  rewrite (rangeUpdate_pointwise _ (λ _ cv, cv)).
  - f_equal. apply map_eq. intros k. rewrite map_lookup_imap.
    by destruct (ksData msg !! k).
  - intros k cv Hk. pose proof (Hall k cv Hk) as Hcv. simpl in Hcv.
    subst cv. by destruct (default [] (ksOriginalEphemeralKeys msg !! k)).
Qed.

Lemma ksRing_empty_rows others root (msg : KeySwitchedCipherMessage) :
  Forall (λ h, tniIsRoot (ksNode h.1) = false) others →
  tniIsRoot (ksNode root.1) = true →
  map_Forall (λ _ cv, cv = []) (ksData msg) →
  ksRing (others ++ [root]) msg = Some (Returned None [Feedback (ksData msg)]).
Proof.
  intros Hothers Hroot Hall.
  induction Hothers as [|[p r] others Hp _ IH].
  - destruct root as [p r]. simpl in *. unfold ksDispatch.
    by rewrite (ksSwitchAll_empty_rows _ _ _ Hall), Hroot.
  - simpl in *. unfold ksDispatch.
    rewrite (ksSwitchAll_empty_rows _ _ _ Hall), Hp. simpl.
    destruct msg as [data newKey keys]. simpl in *. exact IH.
Qed.

End KeySwitchingFacts.

(** C2: a run of the protocol from [Start] at the root, target map and
    public key set: when a row of the target has a component, [Start]
    panics and no message goes round the ring; when no row has one, the
    message comes back and the root delivers the target map as it is.
    No cipher text is ever delivered switched to the new key. *)
Theorem ksProtocol_outcome `{Suite} (root : KeySwitchingProtocol)
    (rootRandomness : Secret) (others : list (KeySwitchingProtocol * Secret))
    (target : gmap UUID CipherVector) (newKey : Point) :
  ksTargetOfSwitch root = Some target →
  ksTargetPublicKey root = Some newKey →
  Forall (λ h, tniIsRoot (ksNode h.1) = false) others →
  tniIsRoot (ksNode root) = true →
  ksProtocol root rootRandomness others =
    Some (if decide (map_Forall (λ _ cv, cv = []) target)
          then Returned None [Feedback target] else Panicked).
Proof.
  intros Ht Hkey Hothers Hroot. unfold ksProtocol, ksStart, ksSendToNext.
  rewrite Ht, Hkey.
  destruct (decide (map_Forall (λ _ cv, cv = []) target)) as [Hall|Hsome].
  - rewrite (ksStartLoop_all_empty _ Hall).
    by rewrite (ksRing_empty_rows others (root, rootRandomness)).
  - apply map_not_Forall in Hsome as (k & cv & Hk & Hne); [|apply _].
    by rewrite (ksStartLoop_nonempty target k cv Hk Hne).
Qed.

(** The root set up with the row [(1,22)] and the key 100·B: the run ends
    in the panic of [Start].  Set up with a row without a component: the
    row is delivered as it is. *)
Lemma ksProtocol_outcome_witness :
  ksProtocol zStartKS 9%Z zRingKS = Some Panicked ∧
  ksProtocol zStartEmptyKS 9%Z zRingKS
    = Some (Returned None [Feedback zEmptyRows]).
Proof.
  assert (Forall (λ h : @KeySwitchingProtocol ZSuite * Z,
                    tniIsRoot (ksNode h.1) = false) zRingKS) as Hothers
    by repeat constructor.
  split.
  - exact (ksProtocol_outcome (H:=ZSuite) zStartKS 9%Z zRingKS zTarget 100%Z
             eq_refl eq_refl Hothers eq_refl).
  - exact (ksProtocol_outcome (H:=ZSuite) zStartEmptyKS 9%Z zRingKS zEmptyRows
             100%Z eq_refl eq_refl Hothers eq_refl).
Defined.

(** C3: with a target map that has a row with a component, and a public
    key, [Start] panics in its loop: no message is sent. *)
Theorem ksStart_panics `{Suite} (p : KeySwitchingProtocol)
    (sendErr : option error) (target : gmap UUID CipherVector)
    (newKey : Point) (k : UUID) (cv : CipherVector) :
  ksTargetOfSwitch p = Some target →
  ksTargetPublicKey p = Some newKey →
  target !! k = Some cv →
  cv ≠ [] →
  ksStart p sendErr = Panicked.
Proof.
  intros Ht Hkey Hk Hne. unfold ksStart. rewrite Ht, Hkey.
  by rewrite (ksStartLoop_nonempty target k cv Hk Hne).
Qed.

Lemma ksStart_panics_witness :
  ksTargetOfSwitch zStartKS = Some zTarget ∧
  ksTargetPublicKey zStartKS = Some 100%Z ∧
  zTarget !! 1%N = Some [zc1] ∧
  ksStart zStartKS None = Panicked.
Proof.
  split; [reflexivity|]. split; [reflexivity|]. split; [reflexivity|].
  apply (ksStart_panics (H:=ZSuite) zStartKS None zTarget 100%Z 1%N [zc1]);
    [reflexivity|reflexivity|reflexivity|discriminate].
Defined.

(** ** Start and the sends of the ring protocols *)

(** C8: [Start] returns an error exactly when the target map is nil
    (Deterministic Switching), when the data reference is nil (Private
    Aggregation), and when the target map or the new public key is nil
    (Key Switching); the first two return nil otherwise.  Key Switching's
    [Start] with both set does not return when a row of the target has a
    component: it panics. *)
Theorem Start_error_iff_configuration_absent `{Suite}
    {GroupingAttributes : Type} `{Countable GroupingAttributes}
    (ds : DeterministicSwitchingProtocol) (ks : KeySwitchingProtocol)
    (pa : @PrivateAggregateProtocol _ GroupingAttributes _ _)
    (sendErr : option error) :
  (is_Some (returnedError (dsStart ds sendErr)) ↔ dsTargetOfSwitch ds = None) ∧
  hasReturned (dsStart ds sendErr) = true ∧
  (is_Some (returnedError (paStart pa)) ↔ paDataReference pa = None) ∧
  hasReturned (paStart pa) = true ∧
  (is_Some (returnedError (ksStart ks sendErr)) ↔
   ksTargetOfSwitch ks = None ∨ ksTargetPublicKey ks = None) ∧
  (∀ target newKey,
     ksTargetOfSwitch ks = Some target →
     ksTargetPublicKey ks = Some newKey →
     (ksStart ks sendErr = Panicked ↔
      ∃ k cv, target !! k = Some cv ∧ cv ≠ [])).
Proof.
  split_and!.
  - unfold dsStart. destruct (dsTargetOfSwitch ds); simpl.
    + split; [by intros [? ?]|done].
    + split; [done|by eexists].
  - unfold dsStart. by destruct (dsTargetOfSwitch ds).
  - unfold paStart. destruct (paDataReference pa); simpl.
    + split; [by intros [? ?]|done].
    + split; [done|by eexists].
  - unfold paStart. by destruct (paDataReference pa).
  - unfold ksStart. destruct (ksTargetOfSwitch ks) as [target|]; simpl.
    + destruct (ksTargetPublicKey ks); simpl.
      * destruct (ksStartLoop target) as [[??]|]; simpl;
          (split; [by intros [? ?]|by intros [?|?]]).
      * split; [by right|by eexists].
    + split; [by left|by eexists].
  - intros target newKey Ht Hkey. unfold ksStart. rewrite Ht, Hkey. split.
    + intros Hpanic.
      destruct (decide (map_Forall (λ _ (cv : CipherVector), cv = []) target))
        as [Hall|Hsome].
      * by rewrite (ksStartLoop_all_empty _ Hall) in Hpanic.
      * by apply map_not_Forall in Hsome; [|apply _].
    + intros (k & cv & Hk & Hne).
      by rewrite (ksStartLoop_nonempty target k cv Hk Hne).
Qed.

(** The root set up with the row [(1,22)] and the key 100·B, nothing of
    its configuration missing: [Start] returns no error, and it does not
    return at all. *)
Lemma Start_error_iff_configuration_absent_witness :
  ksTargetOfSwitch zStartKS = Some zTarget ∧
  ksTargetPublicKey zStartKS = Some 100%Z ∧
  ¬ is_Some (returnedError (ksStart zStartKS None)) ∧
  ksStart zStartKS None = Panicked.
Proof.
  pose proof (Start_error_iff_configuration_absent (H:=ZSuite)
                (zDS 0 true 3 1) zStartKS zRootPA None)
    as (_ & _ & _ & _ & Herr & Hpanic).
  split; [reflexivity|]. split; [reflexivity|]. split.
  - intros Hsome. apply Herr in Hsome. destruct Hsome; discriminate.
  - apply (Hpanic zTarget 100%Z eq_refl eq_refl).
    exists 1%N, [zc1]. split; [reflexivity|discriminate].
Defined.

(** C9, as [sendToNext] handles the error: a call of [Start] or
    [Dispatch] whose send failed is the call whose send succeeded, with
    the failure recorded in that one send: the same return value (nil for
    [Dispatch]), no second send and nothing after the send. *)
Theorem send_failure_is_not_fatal `{Suite}
    (ds : DeterministicSwitchingProtocol) (dsMsg : DeterministicSwitchedMessage)
    (ks : KeySwitchingProtocol) (ksMsg : KeySwitchedCipherMessage)
    (r : Secret) (e : error) :
  (dsStart ds (Some e) = failedSend e (dsStart ds None) ∧
   (length (effectsOf (dsStart ds None)) ≤ 1)%nat) ∧
  (ksStart ks (Some e) = failedSend e (ksStart ks None) ∧
   (length (effectsOf (ksStart ks None)) ≤ 1)%nat) ∧
  (dsDispatch ds dsMsg (Some e) = failedSend e (dsDispatch ds dsMsg None) ∧
   (length (effectsOf (dsDispatch ds dsMsg None)) ≤ 1)%nat) ∧
  (ksDispatch ks ksMsg r (Some e) = failedSend e (ksDispatch ks ksMsg r None) ∧
   (length (effectsOf (ksDispatch ks ksMsg r None)) ≤ 1)%nat) ∧
  returnedError (dsStart ds (Some e)) = returnedError (dsStart ds None) ∧
  returnedError (ksStart ks (Some e)) = returnedError (ksStart ks None) ∧
  returnedError (dsDispatch ds dsMsg (Some e)) = None ∧
  returnedError (ksDispatch ks ksMsg r (Some e)) = None ∧
  hasReturned (dsDispatch ds dsMsg (Some e)) = hasReturned (dsDispatch ds dsMsg None) ∧
  hasReturned (ksDispatch ks ksMsg r (Some e)) = hasReturned (ksDispatch ks ksMsg r None) ∧
  (∀ data, tniIsRoot (dsNode ds) = false →
     dsSwitchAll ds (dsData dsMsg) = Some data →
     dsDispatch ds dsMsg (Some e) =
       Returned None [SendTo (dsNextNodeInCircuit ds) {| dsData := data |} (Some e)]).
Proof.
  unfold dsStart, ksStart, dsDispatch, ksDispatch, dsSendToNext, ksSendToNext.
  split_and!.
  - by destruct (dsTargetOfSwitch ds).
  - destruct (dsTargetOfSwitch ds); simpl; lia.
  - destruct (ksTargetOfSwitch ks) as [target|]; [|done].
    destruct (ksTargetPublicKey ks); [|done].
    by destruct (ksStartLoop target) as [[??]|].
  - destruct (ksTargetOfSwitch ks) as [target|]; [|simpl; lia].
    destruct (ksTargetPublicKey ks); [|simpl; lia].
    destruct (ksStartLoop target) as [[??]|]; simpl; lia.
  - destruct (dsSwitchAll ds (dsData dsMsg)) as [data|]; [|done].
    destruct (tniIsRoot (dsNode ds)); [|done].
    by destruct (dsExtract data).
  - destruct (dsSwitchAll ds (dsData dsMsg)) as [data|]; [|simpl; lia].
    destruct (tniIsRoot (dsNode ds)); [|simpl; lia].
    destruct (dsExtract data); simpl; lia.
  - destruct (ksSwitchAll ks ksMsg r); [|done].
    by destruct (tniIsRoot (ksNode ks)).
  - destruct (ksSwitchAll ks ksMsg r); [|simpl; lia].
    destruct (tniIsRoot (ksNode ks)); simpl; lia.
  - by destruct (dsTargetOfSwitch ds).
  - destruct (ksTargetOfSwitch ks) as [target|]; [|done].
    destruct (ksTargetPublicKey ks); [|done].
    by destruct (ksStartLoop target) as [[??]|].
  - destruct (dsSwitchAll ds (dsData dsMsg)) as [data|]; [|done].
    destruct (tniIsRoot (dsNode ds)); [|done].
    by destruct (dsExtract data).
  - destruct (ksSwitchAll ks ksMsg r); [|done].
    by destruct (tniIsRoot (ksNode ks)).
  - destruct (dsSwitchAll ds (dsData dsMsg)) as [data|]; [|done].
    destruct (tniIsRoot (dsNode ds)); [|done].
    by destruct (dsExtract data).
  - destruct (ksSwitchAll ks ksMsg r); [|done].
    by destruct (tniIsRoot (ksNode ks)).
  - intros data Hroot Hsw. by rewrite Hsw, Hroot.
Qed.

(** Node 1 of the ring, not the root, whose send to node 2 fails:
    [Dispatch] returns nil, as it does when the send succeeds. *)
Lemma dsDispatch_send_failure_returns_nil :
  dsDispatch (zDS 1 false 4 2) {| dsData := {[ 1%N := [zc1] ]} |}
             (Some "connection refused")
  = Returned None
      [SendTo (Some 2%N) {| dsData := {[ 1%N := [zct 1 20] ]} |}
              (Some "connection refused")] ∧
  returnedError (dsDispatch (zDS 1 false 4 2) {| dsData := {[ 1%N := [zc1] ]} |}
                            (Some "connection refused"))
  = returnedError (dsDispatch (zDS 1 false 4 2) {| dsData := {[ 1%N := [zc1] ]} |}
                              None).
Proof. split; vm_compute; reflexivity. Qed.

(** The root of the key switching ring set up with a row without a
    component, whose send to node 1 fails: [Start] returns nil with its
    one send, the failed one; node 1 of the deterministic ring likewise in
    [Dispatch]. *)
Lemma send_failure_is_not_fatal_witness :
  ksStart zStartEmptyKS (Some "connection refused")
  = Returned None [SendTo (Some 1%N) zEmptyRowsMessage (Some "connection refused")] ∧
  dsDispatch (zDS 1 false 4 2) {| dsData := {[ 1%N := [zc1] ]} |}
             (Some "connection refused")
  = Returned None
      [SendTo (Some 2%N) {| dsData := {[ 1%N := [zct 1 20] ]} |}
              (Some "connection refused")].
Proof.
  pose proof (send_failure_is_not_fatal (H:=ZSuite) (zDS 1 false 4 2)
                {| dsData := {[ 1%N := [zc1] ]} |} zStartEmptyKS
                zEmptyRowsMessage 7%Z "connection refused")
    as (_ & [Hks _] & [Hds _] & _).
  split; [exact Hks|exact Hds].
Defined.

(** ** The service *)

(** C7: whenever [HandleSurveyResultsQuery] returns, its error is nil and
    its reply is a result response, whatever the three flushes
    returned. *)
Theorem HandleSurveyResultsQuery_error_is_nil `{Suite}
    {GroupingAttributes : Type} `{Countable GroupingAttributes}
    {collaborators : Collaborators GroupingAttributes}
    (w : World) (mcs mcs' : MedcoService) (resq : SurveyResultsQuery)
    (reply : ProtocolMessage) (err : option error) :
  HandleSurveyResultsQuery w mcs resq = Ret (mcs', (reply, err)) →
  err = None ∧ ∃ results, reply = SurveyResultResponse results.
Proof.
  unfold HandleSurveyResultsQuery.
  destruct (store mcs) as [st|]; [|done].
  destruct (tree mcs); [|done].
  destruct (flushCollectedData w st) as [r1| |]; [|done..]. simpl.
  destruct (flushGroupedData w r1.1) as [r2| |]; [|done..]. simpl.
  destruct (flushAggregatedData w (ClientPublic resq) r2.1) as [r3| |];
    [|done..]. simpl.
  destruct (PollDeliverableResults r3.1) as [st4 results].
  intros [= <- <- <-]. split; [done|]. by eexists.
Qed.

(** The constructor of the deterministic switching protocol fails:
    [flushCollectedData] returns its error, and the handler replies with
    the results in the store and a nil error. *)
Lemma HandleSurveyResultsQuery_error_is_nil_witness :
  flushCollectedData (collaborators:=zCollaborators) zFailingWorld [5%Z]
    = Ret ([5%Z], Some instantiationError) ∧
  ∃ mcs', HandleSurveyResultsQuery zFailingWorld zService zQuery
          = Ret (mcs', (zReply, None)).
Proof.
  split; [reflexivity|].
  assert (∃ mcs' err,
            HandleSurveyResultsQuery zFailingWorld zService zQuery
            = Ret (mcs', (zReply, err))) as (mcs' & err & Hrun).
  { do 2 eexists. reflexivity. }
  exists mcs'.
  destruct (HandleSurveyResultsQuery_error_is_nil (H:=ZSuite)
              zFailingWorld zService mcs' zQuery zReply err Hrun) as [-> _].
  exact Hrun.
Defined.

(** C10: a creation query assigns the four survey fields from the query
    and the picked secret alone, the store being a new one; the reply is
    the service response 1 with a nil error (a panic on an empty entity
    list, after the assignments), and nothing of it depends on what the
    service held before. *)
Theorem HandleSurveyCreationQuery_replaces_survey `{Suite}
    {GroupingAttributes : Type} `{Countable GroupingAttributes}
    {collaborators : Collaborators GroupingAttributes}
    (mcs : MedcoService) (recq : SurveyCreationQuery) (picked : Secret) :
  let mcs' := (HandleSurveyCreationQuery mcs recq picked).1.1 in
  let reply := (HandleSurveyCreationQuery mcs recq picked).2 in
  entityList mcs' = Some (scqEntityList recq) ∧
  tree mcs' = Some (GenerateBinaryTree (scqEntityList recq)) ∧
  store mcs' = Some NewSurvey ∧
  surveyPHKey mcs' = Some picked ∧
  (reply = Ret (ServiceResponse 1, None) ∨
   scqEntityList recq = [] ∧ reply = Crash) ∧
  ∀ mcs0 : MedcoService,
    mcsEntity mcs0 = mcsEntity mcs →
    HandleSurveyCreationQuery mcs0 recq picked
    = HandleSurveyCreationQuery mcs recq picked.
Proof.
  unfold HandleSurveyCreationQuery. simpl.
  destruct (scqEntityList recq) as [|root rest] eqn:Hlist; simpl.
  - repeat split; [by right|]. intros mcs0 ->. done.
  - repeat split; [by left|]. intros mcs0 ->. done.
Qed.

(** The server holding a survey with the response 5 receives a second
    creation query: the store is the new one and the reply is the service
    response 1 with a nil error. *)
Lemma HandleSurveyCreationQuery_replaces_survey_witness :
  store zService = Some [5%Z] ∧
  store (HandleSurveyCreationQuery zService
           (Build_SurveyCreationQuery [3%N; 0%N]) 9%Z).1.1 = Some [] ∧
  (HandleSurveyCreationQuery zService
     (Build_SurveyCreationQuery [3%N; 0%N]) 9%Z).2
    = Ret (ServiceResponse 1, None).
Proof.
  pose proof (HandleSurveyCreationQuery_replaces_survey (H:=ZSuite)
                zService (Build_SurveyCreationQuery [3%N; 0%N]) 9%Z)
    as (_ & _ & Hstore & _ & Hreply & _).
  split; [reflexivity|]. split; [exact Hstore|].
  destruct Hreply as [Hreply|[Hnil _]]; [exact Hreply|discriminate Hnil].
Defined.

(** * Further properties of the code *)

(** ** The circuit of the ring protocols *)

Lemma nextInCircuit_at (nodeList : list TreeNode) (self : TreeNode) (i : nat) :
  nodeList !! i = Some self →
  (∀ j, j < i → nodeList !! j ≠ Some self) →
  nextInCircuit nodeList self = nodeList !! ((i + 1) mod length nodeList) ∧
  is_Some (nextInCircuit nodeList self).
Proof.
  intros Hi Hfirst.
  assert (list_find (λ node, self = node) nodeList = Some (i, self)) as Hfind.
  { apply list_find_Some. split; [done|]. split; [done|].
    intros j y Hj Hlt <-. by apply (Hfirst j). }
  unfold nextInCircuit. rewrite Hfind. split; [done|].
  apply lookup_lt_is_Some. apply Nat.mod_upper_bound.
  apply lookup_lt_Some in Hi. lia.
Qed.

(** X1: the constructors' loop stops at the first position [i] of the node
    in the list, and the next node in the circuit is the one at position
    (i+1) mod N, which exists. *)
Theorem nextInCircuit_successor (nodeList : list TreeNode) (self : TreeNode)
    (i : nat) :
  nodeList !! i = Some self →
  (∀ j, j < i → nodeList !! j ≠ Some self) →
  nextInCircuit nodeList self = nodeList !! ((i + 1) mod length nodeList) ∧
  is_Some (nextInCircuit nodeList self).
Proof. apply nextInCircuit_at. Qed.

Lemma nextInCircuit_successor_witness :
  nextInCircuit [0%N; 1%N; 2%N] 2%N = Some 0%N.
Proof.
  apply (nextInCircuit_successor [0%N; 1%N; 2%N] 2%N 2); [reflexivity|].
  intros [|[|j]] Hj; [discriminate|discriminate|lia].
Defined.

(** X2: an instance has no next node in the circuit exactly when its own
    node is not in the list of the tree (so also when the list is
    empty). *)
Theorem nextInCircuit_None_iff (nodeList : list TreeNode) (self : TreeNode) :
  nextInCircuit nodeList self = None ↔ self ∉ nodeList.
Proof.
  unfold nextInCircuit.
  destruct (list_find (λ node, self = node) nodeList) as [[i node]|] eqn:Hfind.
  - apply list_find_Some in Hfind as (Hi & <- & _).
    split.
    + intros Hnone. apply lookup_lt_Some in Hi.
      assert ((i + 1) mod length nodeList < length nodeList) as Hlt
        by (apply Nat.mod_upper_bound; lia).
      apply lookup_lt_is_Some in Hlt. rewrite Hnone in Hlt.
      by destruct Hlt.
    + intros Hnot. destruct Hnot. by eapply list_elem_of_lookup_2.
  - apply list_find_None in Hfind. split; [|done].
    intros _ Hin. rewrite Forall_forall in Hfind. by apply (Hfind self).
Qed.

(** X3: in a list of distinct nodes, [k] sends along the circuit from the
    node at position [i] end at position (i+k) mod N; after N sends the
    message is back where it started. *)
Theorem circuitAfter_position (nodeList : list TreeNode) (k i : nat)
    (node : TreeNode) :
  NoDup nodeList →
  nodeList !! i = Some node →
  circuitAfter nodeList k node = nodeList !! ((i + k) mod length nodeList) ∧
  circuitAfter nodeList (length nodeList) node = Some node.
Proof.
  intros Hnd.
  assert (∀ k i node, nodeList !! i = Some node →
            circuitAfter nodeList k node
            = nodeList !! ((i + k) mod length nodeList)) as Hpos.
  { clear k i node. induction k as [|k IH]; intros i node Hi.
    - simpl. rewrite Nat.add_0_r, Nat.mod_small; [done|].
      by eapply lookup_lt_Some.
    - simpl.
      destruct (nextInCircuit_at nodeList node i Hi) as [Hnext [next Hsome]].
      { intros j Hj Hjn. pose proof (NoDup_lookup _ _ _ _ Hnd Hi Hjn). lia. }
      rewrite Hsome. simpl. rewrite Hnext in Hsome.
      rewrite (IH _ _ Hsome). f_equal.
      rewrite Nat.Div0.add_mod_idemp_l. f_equal. lia. }
  intros Hi. split; [by apply Hpos|].
  rewrite (Hpos _ _ _ Hi).
  replace (i + length nodeList) with (i + 1 * length nodeList) by lia.
  rewrite Nat.Div0.mod_add, Nat.mod_small; [done|].
  by eapply lookup_lt_Some.
Qed.

Lemma circuitAfter_position_witness :
  circuitAfter [0%N; 1%N; 2%N] 2 1%N = Some 0%N ∧
  circuitAfter [0%N; 1%N; 2%N] 3 1%N = Some 1%N.
Proof.
  apply (circuitAfter_position [0%N; 1%N; 2%N] 2 1 1%N); [|reflexivity].
  apply NoDup_cons; split; [by intros [[=]|[[=]|[]%elem_of_nil]%elem_of_cons]%elem_of_cons|].
  apply NoDup_cons; split; [by intros [[=]|[]%elem_of_nil]%elem_of_cons|].
  apply NoDup_singleton.
Defined.

(** ** Construction and start *)

(** X4: each constructor fails exactly when a channel registration does
    (the first failed registration naming the error), and the instance it
    returns has no target: [Start] on it returns the missing-target error
    and sends nothing. *)
Theorem constructed_instance_cannot_start `{Suite}
    {GroupingAttributes : Type} `{Countable GroupingAttributes}
    (n : TreeNodeInstance) (sendErr : option error) :
  (∀ reg, match NewDeterministSwitchingProtocol n reg with
          | inl p => reg = None ∧
              dsStart p sendErr =
                Returned (Some "No map given as deterministic switching target.") []
          | inr msg => ∃ e, reg = Some e ∧
              msg = "couldn't register data reference channel: " +:+ e
          end) ∧
  (∀ reg, match NewKeySwitchingProtocol n reg with
          | inl p => reg = None ∧
              ksStart p sendErr =
                Returned (Some "No ciphertext given as key switching target.") []
          | inr msg => ∃ e, reg = Some e ∧
              msg = "couldn't register data reference channel: " +:+ e
          end) ∧
  (∀ reg1 reg2,
     match NewPrivateAggregate (GroupingAttributes:=GroupingAttributes) n reg1 reg2 with
     | inl p => reg1 = None ∧ reg2 = None ∧
         paStart p =
           Returned (Some "No data reference provided for aggregation.") []
     | inr msg =>
         (∃ e, reg1 = Some e ∧
               msg = "couldn't register data reference channel: " +:+ e) ∨
         (∃ e, reg1 = None ∧ reg2 = Some e ∧
               msg = "couldn't register child-data channel: " +:+ e)
     end).
Proof.
  split; [|split].
  - intros [e|]; simpl; [by exists e|done].
  - intros [e|]; simpl; [by exists e|done].
  - intros [e1|] [e2|]; simpl; eauto.
Qed.

(** ** Dispatch of the ring protocols *)

Section DispatchFacts.
Context `{Suite}.

Lemma rangeUpdate_dom `{Countable Key} {A} (body : Key → A → option A)
    (m m' : gmap Key A) :
  rangeUpdate body m = Some m' → dom m' = dom m.
Proof.
  unfold rangeUpdate. case_decide as Hall; [|done]. intros [= <-].
  apply set_eq. intros k. rewrite !elem_of_dom, map_lookup_imap.
  destruct (m !! k) as [a|] eqn:Hk; simpl.
  - split; [by eexists|]. intros _. by apply (Hall k a).
  - split; intros [? ?]; done.
Qed.

Lemma rangeUpdate_no_body `{Countable Key} {A} (m : gmap Key A) :
  rangeUpdate (λ _ _, None) m = if decide (m = ∅) then Some ∅ else None.
Proof.
  unfold rangeUpdate. destruct (decide (m = ∅)) as [->|Hm].
  - rewrite decide_True by apply map_Forall_empty.
    by rewrite map_imap_empty.
  - rewrite decide_False; [done|]. intros Hall.
    destruct (map_choose m Hm) as (k & a & Hk).
    by destruct (Hall k a Hk).
Qed.

(** The extraction at the root, in closed form. *)
Lemma dsExtract_closed (data : gmap UUID CipherVector) :
  dsExtract data =
    if decide (map_Forall (λ _ cv, cv = []) data) then Some ∅ else None.
Proof.
  assert ((map_Forall (λ _ cv, cv = []) data → dsExtract data = Some ∅) ∧
          (¬ map_Forall (λ _ cv, cv = []) data → dsExtract data = None))
    as [Hyes Hno].
  { unfold dsExtract.
    apply (map_fold_weak_ind (λ r (m : gmap UUID CipherVector),
      (map_Forall (λ _ (cv : CipherVector), cv = []) m → r = Some ∅) ∧
      (¬ map_Forall (λ _ (cv : CipherVector), cv = []) m → r = None))).
    - split; [done|]. intros Hne. destruct Hne. apply map_Forall_empty.
    - intros i x m r Hi [IHyes IHno]. split.
      + intros [-> Hm]%map_Forall_insert; [|done].
        by rewrite (IHyes Hm).
      + intros Hne.
        destruct (decide (map_Forall (λ _ (cv : CipherVector), cv = []) m))
          as [Hm|Hm].
        * rewrite (IHyes Hm), dsExtractRow_empty.
          rewrite decide_False; [done|]. intros ->. apply Hne.
          by apply map_Forall_insert.
        * rewrite (IHno Hm). apply dsExtractRow_None. }
  case_decide; auto.
Qed.

Lemma mapRows_all_empty {A} (f : CipherText → A) (data : gmap UUID CipherVector) :
  map_Forall (λ _ cv, cv = []) (mapRows f data) ↔
  map_Forall (λ _ cv, cv = []) data.
Proof.
  unfold mapRows. rewrite map_Forall_fmap. unfold map_Forall.
  split; intros Hall k cv Hk; specialize (Hall k cv Hk); simpl in *.
  - by apply fmap_nil_inv in Hall.
  - by rewrite Hall.
Qed.

End DispatchFacts.

(** X5: an instance whose survey key pointer is nil (as the constructor
    leaves it) panics in [Dispatch] as soon as the received map has a row,
    empty or not; on the empty map it delivers or forwards the empty
    map. *)
Theorem dsDispatch_nil_survey_key `{Suite} (p : DeterministicSwitchingProtocol)
    (msg : DeterministicSwitchedMessage) (sendErr : option error) :
  dsSurveyPHKey p = None →
  dsDispatch p msg sendErr =
    if decide (dsData msg = ∅) then
      if tniIsRoot (dsNode p) then Returned None [Feedback ∅]
      else Returned None [SendTo (dsNextNodeInCircuit p) {| dsData := ∅ |} sendErr]
    else Panicked.
Proof.
  intros Hkey. unfold dsDispatch, dsSwitchAll, dsSendToNext. rewrite Hkey. simpl.
  rewrite rangeUpdate_no_body. case_decide; [|done].
  destruct (tniIsRoot (dsNode p)); [|done].
  by rewrite dsExtract_closed, decide_True by apply map_Forall_empty.
Qed.

Lemma dsDispatch_nil_survey_key_witness :
  NewDeterministSwitchingProtocol (zNode 1 false 4) None = inl zFreshDS ∧
  dsDispatch zFreshDS {| dsData := {[ 1%N := [] ]} |} None = Panicked ∧
  dsDispatch zFreshDS {| dsData := ∅ |} None =
    Returned None [SendTo (Some 2%N) {| dsData := ∅ |} None].
Proof.
  split; [reflexivity|]. split.
  - exact (dsDispatch_nil_survey_key (H:=ZSuite) zFreshDS
             {| dsData := {[ 1%N := [] ]} |} None eq_refl).
  - exact (dsDispatch_nil_survey_key (H:=ZSuite) zFreshDS
             {| dsData := ∅ |} None eq_refl).
Defined.

(** X6: whenever [Dispatch] of the deterministic protocol returns, its
    error is nil and it did one thing: at the root it wrote to the
    feedback channel, and the map it wrote is empty; elsewhere it sent one
    message to the next node in the circuit, with the row identifiers it
    received. *)
Theorem dsDispatch_returns `{Suite} (p : DeterministicSwitchingProtocol)
    (msg : DeterministicSwitchedMessage) (sendErr err : option error)
    (effects : list DSEffect) :
  dsDispatch p msg sendErr = Returned err effects →
  err = None ∧
  if tniIsRoot (dsNode p) then effects = [Feedback ∅]
  else ∃ msg', effects = [SendTo (dsNextNodeInCircuit p) msg' sendErr] ∧
               dom (dsData msg') = dom (dsData msg).
Proof.
  unfold dsDispatch, dsSendToNext.
  destruct (dsSwitchAll p (dsData msg)) as [data|] eqn:Hsw; [|done].
  destruct (tniIsRoot (dsNode p)).
  - rewrite dsExtract_closed. case_decide; [|done]. by intros [= <- <-].
  - intros [= <- <-]. split; [done|]. eexists. split; [done|]. simpl.
    by eapply rangeUpdate_dom.
Qed.

Lemma dsDispatch_returns_witness :
  ∃ msg', [SendTo (Some 2%N) {| dsData := {[ 1%N := [zct 1 20] ]} |} None]
          = [SendTo (dsNextNodeInCircuit (zDS 1 false 4 2)) msg' None
             : @DSEffect ZSuite] ∧
          dom (dsData msg') = dom ({[ 1%N := [zc1] ]} : gmap N (list (@CipherText ZSuite))).
Proof.
  exact (proj2 (dsDispatch_returns (H:=ZSuite) (zDS 1 false 4 2)
                  {| dsData := {[ 1%N := [zc1] ]} |} None None
                  [SendTo (Some 2%N) {| dsData := {[ 1%N := [zct 1 20] ]} |} None]
                  eq_refl)).
Defined.

(** X7: the whole ring of the deterministic protocol, every instance
    having its survey key: the message forwarded by all the other
    instances and processed by the root is delivered as the empty map when
    no row has a component, and makes the root panic otherwise. *)
Theorem dsRing_outcome `{Suite}
    (others : list DeterministicSwitchingProtocol)
    (root : DeterministicSwitchingProtocol)
    (msg : DeterministicSwitchedMessage) :
  Forall (λ p, tniIsRoot (dsNode p) = false ∧ is_Some (dsSurveyPHKey p)) others →
  tniIsRoot (dsNode root) = true →
  is_Some (dsSurveyPHKey root) →
  dsRing (others ++ [root]) msg =
    Some (if decide (map_Forall (λ _ cv, cv = []) (dsData msg))
          then Returned None [Feedback ∅] else Panicked).
Proof.
  intros Hothers Hroot [rootKey HrootKey]. revert msg.
  induction Hothers as [|p others [Hp [phKey Hkey]] _ IH]; intros msg; simpl.
  - unfold dsDispatch. rewrite (dsSwitchAll_Some _ _ _ HrootKey), Hroot.
    rewrite dsExtract_closed.
    destruct (decide (map_Forall (λ _ cv, cv = []) (dsData msg))) as [Hall|Hall].
    + by rewrite decide_True by by apply mapRows_all_empty.
    + rewrite decide_False; [done|]. by rewrite mapRows_all_empty.
  - unfold dsDispatch at 1. rewrite (dsSwitchAll_Some _ _ _ Hkey), Hp. simpl.
    rewrite IH. simpl. f_equal.
    destruct (decide (map_Forall (λ _ cv, cv = []) (dsData msg))) as [Hall|Hall].
    + by rewrite decide_True by by apply mapRows_all_empty.
    + rewrite decide_False; [done|]. by rewrite mapRows_all_empty.
Qed.

Lemma dsRing_outcome_witness :
  dsRing ([zDS 1 false 4 2; zDS 2 false 5 3] ++ [zDS 0 true 3 1])
         {| dsData := {[ 1%N := [zc1] ]} |} = Some Panicked ∧
  dsRing ([zDS 1 false 4 2; zDS 2 false 5 3] ++ [zDS 0 true 3 1])
         {| dsData := {[ 1%N := [] ]} |} = Some (Returned None [Feedback ∅]).
Proof.
  assert (Forall (λ p : @DeterministicSwitchingProtocol ZSuite,
            tniIsRoot (dsNode p) = false ∧ is_Some (dsSurveyPHKey p))
            [zDS 1 false 4 2; zDS 2 false 5 3]) as Hothers.
  { repeat constructor; by eexists. }
  split.
  - exact (dsRing_outcome (H:=ZSuite) _ (zDS 0 true 3 1)
             {| dsData := {[ 1%N := [zc1] ]} |} Hothers eq_refl
             (ex_intro _ 1%Z eq_refl)).
  - exact (dsRing_outcome (H:=ZSuite) _ (zDS 0 true 3 1)
             {| dsData := {[ 1%N := [] ]} |} Hothers eq_refl
             (ex_intro _ 1%Z eq_refl)).
Defined.

(** X8: with its target map and public key set, [Start] of the key
    switching protocol returns exactly when no row of the target has a
    component; the message it then sends carries the target map itself,
    the new key and an empty map of original keys. *)
Theorem ksStart_returns_iff_rows_empty `{Suite} (p : KeySwitchingProtocol)
    (sendErr : option error) (target : gmap UUID CipherVector)
    (newKey : Point) :
  ksTargetOfSwitch p = Some target →
  ksTargetPublicKey p = Some newKey →
  (hasReturned (ksStart p sendErr) = true ↔
   map_Forall (λ _ cv, cv = []) target) ∧
  (map_Forall (λ _ cv, cv = []) target →
   ksStart p sendErr =
     Returned None
       [SendTo (ksNextNodeInCircuit p)
               {| ksData := target; ksNewKey := newKey;
                  ksOriginalEphemeralKeys := ∅ |} sendErr]).
Proof.
  intros Ht Hkey. unfold ksStart, ksSendToNext. rewrite Ht, Hkey.
  split.
  - split.
    + intros Hret k cv Hk. destruct (decide (cv = [])) as [|Hne]; [done|].
      by rewrite (ksStartLoop_nonempty target k cv Hk Hne) in Hret.
    + intros Hall. by rewrite (ksStartLoop_all_empty _ Hall).
  - intros Hall. by rewrite (ksStartLoop_all_empty _ Hall).
Qed.

Lemma ksStart_returns_iff_rows_empty_witness :
  ksStart zStartEmptyKS None
  = Returned None [SendTo (Some 1%N) zEmptyRowsMessage None].
Proof.
  apply (ksStart_returns_iff_rows_empty (H:=ZSuite) zStartEmptyKS None
           zEmptyRows 100%Z eq_refl eq_refl).
  by apply map_Forall_singleton.
Defined.

Lemma rangeUpdate_lookup `{Countable Key} {A} (body : Key → A → option A)
    (m m' : gmap Key A) :
  rangeUpdate body m = Some m' → ∀ k, m' !! k = m !! k ≫= body k.
Proof.
  unfold rangeUpdate. case_decide; [|done]. intros [= <-] k.
  apply map_lookup_imap.
Qed.

(** X9: whenever [Dispatch] of the key switching protocol returns, its
    error is nil and it did one thing with the switched map, the map whose
    every row is the received row switched with the secret of the
    instance, the original ephemeral keys the message has for the row, the
    new key of the message and the picked randomness: at the root it wrote
    that map to the feedback channel; elsewhere it sent it to the next
    node in the circuit, in one message with the new key and the original
    ephemeral keys as received. *)
Theorem ksDispatch_returns `{Suite} (p : KeySwitchingProtocol)
    (msg : KeySwitchedCipherMessage) (r : Secret)
    (sendErr err : option error) (effects : list KSEffect) :
  ksDispatch p msg r sendErr = Returned err effects →
  err = None ∧
  ∃ data : gmap UUID CipherVector,
    (∀ k, data !! k =
          ksData msg !! k ≫=
            cvSwitchForKey (tniPrivate (ksNode p))
              (default [] (ksOriginalEphemeralKeys msg !! k))
              (ksNewKey msg) r) ∧
    dom data = dom (ksData msg) ∧
    effects =
      if tniIsRoot (ksNode p) then [Feedback data]
      else [SendTo (ksNextNodeInCircuit p)
              {| ksData := data; ksNewKey := ksNewKey msg;
                 ksOriginalEphemeralKeys := ksOriginalEphemeralKeys msg |}
              sendErr].
Proof.
  unfold ksDispatch, ksSendToNext.
  destruct (ksSwitchAll p msg r) as [data|] eqn:Hsw; [|done].
  intros Hret. assert (err = None ∧
    effects = if tniIsRoot (ksNode p) then [Feedback data]
              else [SendTo (ksNextNodeInCircuit p)
                      {| ksData := data; ksNewKey := ksNewKey msg;
                         ksOriginalEphemeralKeys := ksOriginalEphemeralKeys msg |}
                      sendErr]) as [-> ->].
  { destruct (tniIsRoot (ksNode p)); by injection Hret as <- <-. }
  split; [done|]. exists data. split_and!; [|by eapply rangeUpdate_dom|done].
  intros k. by apply (rangeUpdate_lookup _ _ _ Hsw).
Qed.

(** Node 1 (secret 4, randomness 7) receives the row [(0,22)] with the
    original key 1 and the new key 100·B: it sends [(7,718)] to node 2. *)
Lemma ksDispatch_returns_witness :
  ∃ data : gmap N (list (@CipherText ZSuite)),
    data !! 1%N = Some [zct 7 718] ∧
    [SendTo (Some 2%N) zAfterNode1 None : @KSEffect ZSuite]
    = [SendTo (Some 2%N)
         (@Build_KeySwitchedCipherMessage ZSuite data 100%Z {[ 1%N := [1%Z] ]})
         None].
Proof.
  destruct (ksDispatch_returns (H:=ZSuite) (zKS 1 false 4) zBeforeNode1 7%Z
              None None [SendTo (Some 2%N) zAfterNode1 None] eq_refl)
    as (_ & data & Hrows & _ & Heff).
  exists data. split; [exact (Hrows 1%N)|exact Heff].
Defined.

(** ** The ascending phase over several children *)

Section AscendingFacts.
Context `{Suite} {GroupingAttributes : Type} `{Countable GroupingAttributes}.
Implicit Types (local child : gmap GroupingAttributes CipherVector).

Lemma double_nil : cvAdd ([] : CipherVector) [] = [].
Proof. done. Qed.

Lemma foldChild_reported local child g :
  is_Some (child !! g) →
  foldChild local child !! g
  = Some (cvAdd (default [] (local !! g)) (default [] (local !! g))).
Proof.
  intros [v Hv]. rewrite foldChild_lookup, Hv. by destruct (local !! g).
Qed.

Lemma foldl_foldChild_lookup
    (children : list (gmap GroupingAttributes CipherVector)) g :
  ∀ local,
  foldl foldChild local children !! g =
    match reporting g children with
    | O => local !! g
    | S n => Some (Nat.iter (S n) (λ v, cvAdd v v) (default [] (local !! g)))
    end.
Proof.
  unfold reporting.
  induction children as [|child children IH]; intros local; [done|].
  simpl. rewrite IH. rewrite filter_cons.
  destruct (decide (is_Some (child !! g))) as [Hrep|Hrep].
  - rewrite (foldChild_reported _ _ _ Hrep).
    change (length (child :: filter (λ c, is_Some (c !! g)) children))
      with (S (length (filter (λ c, is_Some (c !! g)) children))).
    destruct (length (filter _ children)) as [|n]; [done|].
    f_equal.
    exact (Nat.iter_swap (S n) _ (λ v : CipherVector, cvAdd v v)
             (default [] (local !! g))).
  - assert (foldChild local child !! g = local !! g) as ->; [|done].
    rewrite foldChild_lookup. destruct (child !! g) eqn:Hc; [|done].
    destruct Hrep. by eexists.
Qed.

Lemma dom_foldChild local child :
  dom (foldChild local child) = dom local ∪ dom child.
Proof.
  apply set_eq. intros g. rewrite elem_of_union, !elem_of_dom, foldChild_lookup.
  destruct (child !! g) as [v|], (local !! g) as [w|]; split.
  all: try (intros _; by eexists).
  all: try (intros _; left; by eexists).
  all: try (intros _; right; by eexists).
  all: try done.
  all: intros [[? ?]|[? ?]]; done.
Qed.

Lemma dom_foldl_foldChild
    (children : list (gmap GroupingAttributes CipherVector)) :
  ∀ local, dom (foldl foldChild local children)
           = dom local ∪ ⋃ (map dom children).
Proof.
  induction children as [|child children IH]; intros local; simpl.
  - by rewrite union_empty_r_L.
  - by rewrite IH, dom_foldChild, (assoc_L (∪)).
Qed.

Lemma dom_aggregated (t : @AggTree _ GroupingAttributes _ _) :
  ∀ isRoot, dom (aggregated isRoot t) = heldGroups t.
Proof.
  induction t as [d children IH] using AggTree_nested_ind. intros isRoot.
  simpl. unfold ascendingAggregationPhase. simpl.
  assert (map dom (map (aggregated false) children) = map heldGroups children)
    as Hmap.
  { induction IH as [|c cs Hc _ IHcs]; [done|]. simpl. by rewrite Hc, IHcs. }
  case_bool_decide as Hleaf.
  - subst children. simpl. by rewrite union_empty_r_L.
  - by rewrite dom_foldl_foldChild, Hmap.
Qed.

End AscendingFacts.

(** X10: the map of a node that is not a leaf, group by group: a group no
    child reports keeps the local entry; a group that n ≥ 1 children
    report holds the local vector (the nil vector when the node had none)
    added to itself n times over, whatever vectors the children sent. *)
Theorem ascendingAggregationPhase_closed_form `{Suite}
    {GroupingAttributes : Type} `{Countable GroupingAttributes}
    (isRoot : bool)
    (localContribution : option (gmap GroupingAttributes CipherVector))
    (children : list (gmap GroupingAttributes CipherVector))
    (group : GroupingAttributes) :
  (ascendingAggregationPhase false isRoot localContribution children).1 !! group
  = match reporting group children with
    | O => default ∅ localContribution !! group
    | S n => Some (Nat.iter (S n) (λ v, cvAdd v v)
                     (default [] (default ∅ localContribution !! group)))
    end.
Proof. unfold ascendingAggregationPhase. simpl. apply foldl_foldChild_lookup. Qed.

(** X11: the groups of the map the root delivers are exactly the groups
    some node of the tree holds in its data reference. *)
Theorem delivered_groups `{Suite} {GroupingAttributes : Type}
    `{Countable GroupingAttributes} (t : @AggTree _ GroupingAttributes _ _) :
  dom (delivered t) = heldGroups t.
Proof. apply dom_aggregated. Qed.

(** ** The handlers of the service *)

(** X12: the creation query is passed on by the first entity of the list
    only: it sends the query it received, unchanged, to the entities of
    the list other than itself; every other server sends nothing. *)
Theorem HandleSurveyCreationQuery_broadcast `{Suite}
    {GroupingAttributes : Type} `{Countable GroupingAttributes}
    {collaborators : Collaborators GroupingAttributes}
    (mcs : MedcoService) (recq : SurveyCreationQuery) (picked : Secret)
    (e : Entity) (msg : SurveyCreationQuery) :
  SendRawTo e msg ∈ (HandleSurveyCreationQuery mcs recq picked).1.2 ↔
  msg = recq ∧ e ∈ scqEntityList recq ∧ e ≠ mcsEntity mcs ∧
  head (scqEntityList recq) = Some (mcsEntity mcs).
Proof.
  unfold HandleSurveyCreationQuery. simpl.
  destruct (scqEntityList recq) as [|root rest] eqn:Hlist; simpl.
  - rewrite elem_of_nil. split; [done|]. by intros (_ & _ & _ & ?).
  - case_decide as Hroot.
    + rewrite list_elem_of_fmap. split.
      * intros (e' & [= -> ->] & [Hne Hin]%list_elem_of_filter).
        split_and!; [done|done|done|by rewrite Hroot].
      * intros (-> & Hin & Hne & _). exists e. split; [done|].
        by apply list_elem_of_filter.
    + rewrite elem_of_nil. split; [done|].
      intros (_ & _ & _ & [= Hhead]). by destruct Hroot.
Qed.

Lemma HandleSurveyCreationQuery_broadcast_witness :
  SendRawTo 2%N (Build_SurveyCreationQuery [0%N; 1%N; 2%N])
    ∈ (HandleSurveyCreationQuery zService
         (Build_SurveyCreationQuery [0%N; 1%N; 2%N]) 9%Z).1.2 ∧
  ¬ SendRawTo 0%N (Build_SurveyCreationQuery [0%N; 1%N; 2%N])
    ∈ (HandleSurveyCreationQuery zService
         (Build_SurveyCreationQuery [0%N; 1%N; 2%N]) 9%Z).1.2.
Proof.
  split.
  - apply (HandleSurveyCreationQuery_broadcast (H:=ZSuite) zService
             (Build_SurveyCreationQuery [0%N; 1%N; 2%N]) 9%Z 2%N).
    split_and!; [reflexivity| |discriminate|reflexivity].
    simpl. do 2 apply list_elem_of_further. apply list_elem_of_here.
  - intros Hin.
    apply (HandleSurveyCreationQuery_broadcast (H:=ZSuite) zService
             (Build_SurveyCreationQuery [0%N; 1%N; 2%N]) 9%Z 0%N) in Hin.
    destruct Hin as (_ & _ & Hne & _). by apply Hne.
Defined.

(** X13: the conversion loop of [flushCollectedData] either converts
    every row, keeping the row identifiers, or ends with the error of a
    row that does not convert. *)
Theorem convertAll_result `{Suite} {GroupingAttributes : Type}
    `{Countable GroupingAttributes}
    {collaborators : Collaborators GroupingAttributes}
    (res : gmap UUID DeterministCipherVector) :
  match convertAll res with
  | inl converted =>
      ∀ k, inl <$> (converted !! k)
           = DeterministicCipherVectorToGroupingAttributes <$> (res !! k)
  | inr e =>
      ∃ k v, res !! k = Some v ∧
             DeterministicCipherVectorToGroupingAttributes v = inr e
  end.
Proof.
  unfold convertAll.
  apply (map_fold_weak_ind (λ (r : gmap UUID GroupingAttributes + error)
                              (m : gmap UUID DeterministCipherVector),
    match r with
    | inl converted =>
        ∀ k, inl <$> (converted !! k)
             = DeterministicCipherVectorToGroupingAttributes <$> (m !! k)
    | inr e =>
        ∃ k v, m !! k = Some v ∧
               DeterministicCipherVectorToGroupingAttributes v = inr e
    end)).
  - intros k. by rewrite !lookup_empty.
  - intros i x m r Hi IH. destruct r as [converted|e].
    + destruct (DeterministicCipherVectorToGroupingAttributes x) as [g|e] eqn:Hx.
      * intros k. destruct (decide (i = k)) as [->|Hik].
        -- rewrite !lookup_insert_eq. simpl. by rewrite Hx.
        -- rewrite !lookup_insert_ne by done. apply IH.
      * exists i, x. by rewrite lookup_insert_eq.
    + destruct IH as (k & v & Hk & Hv). exists k, v. split; [|done].
      rewrite lookup_insert_ne; [done|]. intros ->. by rewrite Hi in Hk.
Qed.

Section FlushFacts.
Context `{Suite} {GroupingAttributes : Type} `{Countable GroupingAttributes}.
Context {collaborators : Collaborators GroupingAttributes}.

Lemma flushCollectedData_shape (w : World) (st : Survey) :
  (flushCollectedData w st = Block ∧
   wRegisterDS w = None ∧ wFeedbackDS w = None) ∨
  ((∃ r, flushCollectedData w st = Ret r) ∧
   ¬ (wRegisterDS w = None ∧ wFeedbackDS w = None)).
Proof.
  unfold flushCollectedData, NewDeterministSwitchingProtocol, receive.
  destruct (PollProbabilisticGroupingAttributes st) as [st1 pga].
  destruct (wRegisterDS w) as [e|].
  - right. split; [by eexists|]. by intros [? _].
  - destruct (wFeedbackDS w) as [fb|]; simpl.
    + right. split; [|by intros [_ ?]].
      destruct (convertAll fb); by eexists.
    + by left.
Qed.

Lemma flushGroupedData_shape (w : World) (st : Survey) :
  (flushGroupedData w st = Block ∧
   wRegisterPA w = None ∧ wFeedbackPA w = None) ∨
  ((∃ r, flushGroupedData w st = Ret r) ∧
   ¬ (wRegisterPA w = None ∧ wFeedbackPA w = None)).
Proof.
  unfold flushGroupedData, receive.
  destruct (PollLocallyAggregatedResponses st) as [st1 gd].
  destruct (wRegisterPA w) as [e|].
  - right. split; [by eexists|]. by intros [? _].
  - destruct (wFeedbackPA w) as [fb|]; simpl.
    + right. split; [by eexists|by intros [_ ?]].
    + by left.
Qed.

Lemma flushAggregatedData_shape (w : World) (key : Point) (st : Survey) :
  (flushAggregatedData w key st = Block ∧
   wRegisterKS w = None ∧
   (wFeedbackKS w = None ∨ (wRegisterPS w = None ∧ wFeedbackPS w = None))) ∨
  ((∃ r, flushAggregatedData w key st = Ret r) ∧
   ¬ (wRegisterKS w = None ∧
      (wFeedbackKS w = None ∨ (wRegisterPS w = None ∧ wFeedbackPS w = None)))).
Proof.
  unfold flushAggregatedData, NewKeySwitchingProtocol, receive.
  destruct (PollCothorityAggregatedGroups st) as [st1 [ag aa]].
  destruct (wRegisterKS w) as [e|].
  - right. split; [by eexists|]. by intros [? _].
  - destruct (wFeedbackKS w) as [fb|]; simpl.
    + destruct (wRegisterPS w) as [e|].
      * right. split; [by eexists|]. by intros [_ [?|[? _]]].
      * destruct (wFeedbackPS w) as [fb2|]; simpl.
        -- right. split; [by eexists|]. by intros [_ [?|[_ ?]]].
        -- left. split; [done|]. split; [done|]. by right.
    + left. split; [done|]. split; [done|]. by left.
Qed.

End FlushFacts.

(** X14: on a server that holds a survey, the handler of the results
    query returns its reply exactly when every phase whose protocol was
    constructed receives a value on its feedback channel; a phase whose
    constructor failed is passed over and the later phases still run. *)
Theorem HandleSurveyResultsQuery_returns_iff `{Suite}
    {GroupingAttributes : Type} `{Countable GroupingAttributes}
    {collaborators : Collaborators GroupingAttributes}
    (w : World) (mcs : MedcoService) (resq : SurveyResultsQuery)
    (st : Survey) (t : Tree) :
  store mcs = Some st →
  tree mcs = Some t →
  ((∃ r, HandleSurveyResultsQuery w mcs resq = Ret r) ↔
   (wRegisterDS w = None → is_Some (wFeedbackDS w)) ∧
   (wRegisterPA w = None → is_Some (wFeedbackPA w)) ∧
   (wRegisterKS w = None →
    is_Some (wFeedbackKS w) ∧
    (wRegisterPS w = None → is_Some (wFeedbackPS w)))).
Proof.
  intros Hst Ht. unfold HandleSurveyResultsQuery. rewrite Hst, Ht.
  destruct (flushCollectedData_shape w st)
    as [(-> & Hreg1 & Hfb1)|[[r1 ->] H1]]; simpl.
  { split; [by intros [? ?]|]. intros (Hfed & _).
    destruct (Hfed Hreg1) as [? Hsome]. by rewrite Hfb1 in Hsome. }
  destruct (flushGroupedData_shape w r1.1)
    as [(-> & Hreg2 & Hfb2)|[[r2 ->] H2]]; simpl.
  { split; [by intros [? ?]|]. intros (_ & Hfed & _).
    destruct (Hfed Hreg2) as [? Hsome]. by rewrite Hfb2 in Hsome. }
  destruct (flushAggregatedData_shape w (ClientPublic resq) r2.1)
    as [(-> & Hreg3 & Hfb3)|[[r3 ->] H3]]; simpl.
  { split; [by intros [? ?]|]. intros (_ & _ & Hfed).
    destruct (Hfed Hreg3) as [[? Hks] Hps].
    destruct Hfb3 as [Hfb3|[Hreg4 Hfb4]]; [by rewrite Hfb3 in Hks|].
    destruct (Hps Hreg4) as [? Hsome]. by rewrite Hfb4 in Hsome. }
  destruct (PollDeliverableResults r3.1) as [st4 results].
  split; [intros _|intros _; by eexists].
  split_and!.
  - intros Hreg. destruct (wFeedbackDS w); [by eexists|]. by destruct H1.
  - intros Hreg. destruct (wFeedbackPA w); [by eexists|]. by destruct H2.
  - intros Hreg. split.
    + destruct (wFeedbackKS w); [by eexists|]. destruct H3. split; [done|by left].
    + intros Hreg4. destruct (wFeedbackPS w); [by eexists|].
      destruct H3. split; [done|]. by right.
Qed.

(** The constructor of the first protocol fails and the other phases get
    their feedback: the handler returns. *)
Lemma HandleSurveyResultsQuery_returns_iff_witness :
  ∃ r, HandleSurveyResultsQuery zFailingWorld zService zQuery = Ret r.
Proof.
  apply (HandleSurveyResultsQuery_returns_iff (H:=ZSuite) zFailingWorld
           zService zQuery [5%Z] [0%N; 1%N; 2%N] eq_refl eq_refl).
  split_and!.
  - discriminate.
  - intros _. by eexists.
  - intros _. split; [by eexists|]. intros _. by eexists.
Defined.
